(** * Crypto RSI alerts: a shallow embedding of [app.py]

    The script polls a market-data provider for the top coins, fetches
    the OHLC candles of every coin, computes a Wilder-smoothed RSI from
    the closing prices, classifies each reading against two thresholds
    and shows a table sorted by RSI.

    The embedding follows the script function by function:
    - Python exceptions are the [Err] results of an error monad;
    - HTTP traffic and [time.sleep] are effects of a state monad over a
      [world] that logs every request and every sleep, the provider
      being an arbitrary oracle [net];
    - Python's [float] is an interface [PyFloat] with two instances:
      exact rationals ([Q], used for the general theorems) and IEEE
      binary64 ([PrimFloat], used to evaluate the code on concrete
      inputs);
    - JSON payloads are values of [json], so that malformed rows and
      non-numeric closes exist in the model as they do at run time. *)

From Stdlib Require Import ZArith QArith Qabs Qminmax Qround.
From Stdlib Require Import String List Bool Lia Lqa Permutation Sorted.
From Stdlib Require Import PrimFloat Uint63.
Import ListNotations.

Set Implicit Arguments.
Local Open Scope Z_scope.

(** ** Exceptions and the error monad *)

(** The exception classes the script can meet.  [HTTPError] carries the
    status code of [e.response] ([None] when the exception has no
    response attached); [RequestException] stands for every other
    failure of the [requests] library (connection, timeout, a body that
    is not JSON). *)
Inductive exn : Type :=
| HTTPError (status_code : option Z)
| RequestException
| TypeError
| ZeroDivisionError
| IndexError
| AttributeError
| KeyError.

Inductive result (A : Type) : Type :=
| Ok (a : A)
| Err (e : exn).
Arguments Ok {A} a.
Arguments Err {A} e.

Definition rbind {A B : Type} (c : result A) (k : A -> result B) : result B :=
  match c with
  | Ok a => k a
  | Err e => Err e
  end.

Declare Scope result_scope.
Delimit Scope result_scope with result.
Notation "x <- c ;; k" := (rbind c (fun x => k))
  (at level 61, c at next level, right associativity) : result_scope.
Notation "' p <- c ;; k" := (rbind c (fun x => match x with p => k end))
  (at level 61, p pattern, c at next level, right associativity) : result_scope.
Local Open Scope result_scope.

(** A [for] loop over a list of indices with a body that may raise. *)
Fixpoint for_each {S I : Type} (body : S -> I -> result S) (s : S) (l : list I)
  : result S :=
  match l with
  | [] => Ok s
  | i :: l' => s' <- body s i ;; for_each body s' l'
  end.

(** ** Python values *)

(** What [r.json()] can return, over a type [F] of floats. *)
#[local] Unset Elimination Schemes.
Inductive json (F : Type) : Type :=
| JNull
| JBool (b : bool)
| JNum (x : F)
| JStr (s : string)
| JArr (items : list (json F))
| JObj (fields : list (string * json F)).
#[local] Set Elimination Schemes.
Arguments JNull {F}.
Arguments JBool {F} b.
Arguments JNum {F} x.
Arguments JStr {F} s.
Arguments JArr {F} items.
Arguments JObj {F} fields.

(** The float operations the script uses.  [of_int] is the conversion
    Python applies to an [int] operand of a float operation, and the
    float literals [0.0], [1.0] and [100.0] are [of_int 0], [of_int 1]
    and [of_int 100]. *)
Class PyFloat (F : Type) : Type := {
  fadd : F -> F -> F;
  fsub : F -> F -> F;
  fmul : F -> F -> F;
  fdiv : F -> F -> F;
  fabs : F -> F;
  flt : F -> F -> bool;
  fle : F -> F -> bool;
  feq : F -> F -> bool;
  of_int : Z -> F;
  f1em12 : F
}.

(** [range(a, b)] *)
Definition py_range (a b : Z) : list Z :=
  map (fun k => a + Z.of_nat k) (seq 0 (Z.to_nat (b - a))).

(** [l[i]], negative indices counting from the end. *)
Definition py_index {A : Type} (l : list A) (i : Z) : result A :=
  let n := Z.of_nat (length l) in
  let j := if i <? 0 then i + n else i in
  if (0 <=? j) && (j <? n) then
    match nth_error l (Z.to_nat j) with
    | Some x => Ok x
    | None => Err IndexError
    end
  else Err IndexError.

(** [l[:n]] *)
Definition py_slice_to {A : Type} (l : list A) (n : Z) : list A :=
  if 0 <=? n then firstn (Z.to_nat n) l
  else firstn (length l - Z.to_nat (- n)) l.

Section Engine.
Context {F : Type} `{PyFloat F}.

(** [max(a, b)] and [min(a, b)] of the builtins: the second argument
    wins only when it is strictly greater (smaller). *)
Definition py_max (a b : F) : F := if flt a b then b else a.
Definition py_min (a b : F) : F := if flt b a then b else a.

(** [sum(l)]: left to right from the integer [0].  (CPython 3.12 and
    later compensate the rounding errors of a float sum; a sum that
    overflows is infinite either way.) *)
Definition py_sum (l : list F) : F := fold_left fadd l (of_int 0).

(** [x / y] raises on a zero divisor. *)
Definition py_truediv (x y : F) : result F :=
  if feq y (of_int 0) then Err ZeroDivisionError else Ok (fdiv x y).

(** Numbers are floats (a JSON integer is read as the float of the same
    value) and booleans; any other operand of an arithmetic operation
    raises [TypeError]. *)
Definition as_number (v : json F) : result F :=
  match v with
  | JNum x => Ok x
  | JBool b => Ok (of_int (if b then 1 else 0))
  | _ => Err TypeError
  end.

Definition py_sub (a b : json F) : result F :=
  x <- as_number a ;; y <- as_number b ;; Ok (fsub x y).

(** *** [closes_from_ohlc] *)

(** One turn of the comprehension
    [[row[4] for row in ohlc if isinstance(row, list) and len(row) >= 5]]:
    the test, then the subscript on the rows that pass it. *)
Definition keep_close (acc : list (json F)) (row : json F)
  : result (list (json F)) :=
  match row with
  | JArr items =>
      if 5 <=? Z.of_nat (length items)
      then c <- py_index items 4 ;; Ok (acc ++ [c])
      else Ok acc
  | _ => Ok acc
  end.

Definition closes_from_ohlc (ohlc : list (json F)) : result (list (json F)) :=
  for_each keep_close [] ohlc.

(** *** [compute_rsi] *)

(** Body of the first loop, [for i in range(1, period + 1)]. *)
Definition seed_step (closes : list (json F)) (acc : list F * list F) (i : Z)
  : result (list F * list F) :=
  let '(gains, losses) := acc in
  c_i <- py_index closes i ;;
  c_prev <- py_index closes (i - 1) ;;
  change <- py_sub c_i c_prev ;;
  Ok (gains ++ [py_max change (of_int 0)],
      losses ++ [fabs (py_min change (of_int 0))]).

(** Body of the second loop, [for i in range(period + 1, len(closes))]. *)
Definition smooth_step (closes : list (json F)) (period : Z) (acc : F * F) (i : Z)
  : result (F * F) :=
  let '(avg_gain, avg_loss) := acc in
  c_i <- py_index closes i ;;
  c_prev <- py_index closes (i - 1) ;;
  change <- py_sub c_i c_prev ;;
  let gain := py_max change (of_int 0) in
  let loss := fabs (py_min change (of_int 0)) in
  avg_gain' <- py_truediv (fadd (fmul avg_gain (of_int (period - 1))) gain)
                          (of_int period) ;;
  avg_loss' <- py_truediv (fadd (fmul avg_loss (of_int (period - 1))) loss)
                          (of_int period) ;;
  Ok (avg_gain', avg_loss').

(** Lines 101-114: the two loops, giving the final [avg_gain] and
    [avg_loss]. *)
Definition smoothed_averages (closes : list (json F)) (period : Z)
  : result (F * F) :=
  ' (gains, losses) <-
    for_each (seed_step closes) ([], []) (py_range 1 (period + 1)) ;;
  avg_gain <- py_truediv (py_sum gains) (of_int period) ;;
  avg_loss <- py_truediv (py_sum losses) (of_int period) ;;
  for_each (smooth_step closes period) (avg_gain, avg_loss)
           (py_range (period + 1) (Z.of_nat (length closes))).

Definition compute_rsi (closes : list (json F)) (period : Z)
  : result (option F) :=
  if Z.of_nat (length closes) <? period + 1 then Ok None
  else
    ' (avg_gain, avg_loss) <- smoothed_averages closes period ;;
    if flt (fabs avg_loss) f1em12 then Ok (Some (of_int 100))
    else
      rs <- py_truediv avg_gain avg_loss ;;
      q <- py_truediv (of_int 100) (fadd (of_int 1) rs) ;;
      Ok (Some (fsub (of_int 100) q)).

End Engine.

(** ** The two float instances *)

(** Exact rational arithmetic. *)
#[export] Instance Q_float : PyFloat Q := {|
  fadd := Qplus;
  fsub := Qminus;
  fmul := Qmult;
  fdiv := Qdiv;
  fabs := Qabs;
  flt := fun x y => negb (Qle_bool y x);
  fle := Qle_bool;
  feq := Qeq_bool;
  of_int := inject_Z;
  f1em12 := 1 # 1000000000000
|}.

(** IEEE 754 binary64, the format of CPython's [float].  [of_int] is
    exact below [2^53], which covers every integer the script converts. *)
Definition b64_of_int (z : Z) : float :=
  if z <? 0 then PrimFloat.opp (PrimFloat.of_uint63 (Uint63.of_Z (- z)))
  else PrimFloat.of_uint63 (Uint63.of_Z z).

#[export] Instance b64_float : PyFloat float := {|
  fadd := PrimFloat.add;
  fsub := PrimFloat.sub;
  fmul := PrimFloat.mul;
  fdiv := PrimFloat.div;
  fabs := PrimFloat.abs;
  flt := PrimFloat.ltb;
  fle := PrimFloat.leb;
  feq := PrimFloat.eqb;
  of_int := b64_of_int;
  f1em12 := 0x1.19799812dea11p-40%float
|}.

(** ** The outside world *)

(** The two endpoints the script calls.  The other query parameters are
    constants. *)
Inductive request (F : Type) : Type :=
| GetMarkets (per_page page : Z)
| GetOhlc (coin_id : json F) (days : Z).
Arguments GetMarkets {F} per_page page.
Arguments GetOhlc {F} coin_id days.

(** A response: its status code and its body when the body is a JSON
    array ([None] when [r.json()] would fail). *)
Record response (F : Type) : Type := {
  status_code : Z;
  body : option (list (json F))
}.

(** The requests sent so far, oldest first, and the sleeps taken. *)
Record world (F : Type) : Type := {
  sent : list (request F);
  slept : list Z
}.

Definition M (F A : Type) : Type := world F -> result A * world F.

Definition mret {F A : Type} (a : A) : M F A := fun w => (Ok a, w).
Definition mraise {F A : Type} (e : exn) : M F A := fun w => (Err e, w).
Definition lift {F A : Type} (r : result A) : M F A := fun w => (r, w).

Definition mbind {F A B : Type} (c : M F A) (k : A -> M F B) : M F B :=
  fun w =>
    match c w with
    | (Ok a, w') => k a w'
    | (Err e, w') => (Err e, w')
    end.

(** [try: c  except <handled by h>: ...]; the handler re-raises what it
    does not handle. *)
Definition mtry {F A : Type} (c : M F A) (h : exn -> M F A) : M F A :=
  fun w =>
    match c w with
    | (Ok a, w') => (Ok a, w')
    | (Err e, w') => h e w'
    end.

Declare Scope world_scope.
Delimit Scope world_scope with world.
Notation "x <- c ;; k" := (mbind c (fun x => k))
  (at level 61, c at next level, right associativity) : world_scope.
Notation "' p <- c ;; k" := (mbind c (fun x => match x with p => k end))
  (at level 61, p pattern, c at next level, right associativity) : world_scope.

Fixpoint mfor_each {F S I : Type} (body : S -> I -> M F S) (s : S) (l : list I)
  : M F S :=
  match l with
  | [] => mret s
  | i :: l' => mbind (body s i) (fun s' => mfor_each body s' l')
  end.

(** [r.raise_for_status()] *)
Definition raise_for_status {F : Type} (r : response F) : result unit :=
  if (400 <=? status_code r) && (status_code r <? 600)
  then Err (HTTPError (Some (status_code r)))
  else Ok tt.

(** [r.json()] *)
Definition response_json {F : Type} (r : response F) : result (list (json F)) :=
  match body r with
  | Some payload => Ok payload
  | None => Err RequestException
  end.

Section CandleSource.
Context {F : Type}.

(** The provider: what the [k]-th request of the run answers, or the
    exception [requests.get] raises.  The [st.cache_data] wrappers of
    [fetch_top_coins] and [fetch_ohlc] are left out: a cache hit returns
    a stored result without running the body, and the bodies are what
    is modelled. *)
Variable net : nat -> request F -> result (response F).

Definition http_get (rq : request F) : M F (response F) :=
  fun w => (net (length (sent w)) rq,
            {| sent := sent w ++ [rq]; slept := slept w |}).

(** [time.sleep(s)] *)
Definition sleep (s : Z) : M F unit :=
  fun w => (Ok tt, {| sent := sent w; slept := slept w ++ [s] |}).

Local Open Scope world_scope.

(** [get], [raise_for_status], [json]: the three lines every fetch
    shares. *)
Definition get_json (rq : request F) : M F (list (json F)) :=
  r <- http_get rq ;;
  _ <- lift (raise_for_status r) ;;
  lift (response_json r).

Definition _fetch_ohlc_once (coin_id : json F) (days : Z) : M F (list (json F)) :=
  get_json (GetOhlc coin_id days).

Definition fetch_ohlc (coin_id : json F) (days : Z) : M F (list (json F)) :=
  mtry (_fetch_ohlc_once coin_id days)
       (fun e =>
          match e with
          | HTTPError (Some code) =>
              if code =? 429
              then _ <- sleep 5 ;; _fetch_ohlc_once coin_id days
              else mraise e
          | _ => mraise e
          end).

(** The [while len(results) < n] loop of [fetch_top_coins].  [None]
    means the fuel ran out before the loop ended. *)
Fixpoint top_coins_loop (fuel : nat) (n per_page : Z)
         (results : list (json F)) (page : Z) (w : world F)
  : option (result (list (json F)) * world F) :=
  if Z.of_nat (length results) <? n then
    match fuel with
    | O => None
    | S fuel' =>
        match get_json (GetMarkets per_page page) w with
        | (Err e, w') => Some (Err e, w')
        | (Ok batch, w') =>
            match batch with
            | [] => Some (Ok (py_slice_to results n), w')
            | _ :: _ =>
                let results' := results ++ batch in
                if Z.of_nat (length batch) <? per_page
                then Some (Ok (py_slice_to results' n), w')
                else top_coins_loop fuel' n per_page results' (page + 1) w'
            end
        end
    end
  else Some (Ok (py_slice_to results n), w).

Definition fetch_top_coins (n : Z) (w : world F)
  : option (result (list (json F)) * world F) :=
  top_coins_loop (Z.to_nat n) n (Z.min 250 n) [] 1 w.

End CandleSource.

(** ** The main loop *)

(** One line of the table. *)
Record row (F : Type) : Type := {
  Name : json F;
  Symbol : string;
  Price : json F;
  RSI : option F
}.

Inductive direction : Type := Oversold | Overbought.

(** [d.get(key, default)]; the fields of an object have distinct keys. *)
Definition py_get {F : Type} (d : json F) (key : string) (default : json F)
  : result (json F) :=
  match d with
  | JObj fields =>
      match find (fun kv => String.eqb (fst kv) key) fields with
      | Some kv => Ok (snd kv)
      | None => Ok default
      end
  | _ => Err AttributeError
  end.

Section Orchestrator.
Context {F : Type} `{PyFloat F}.

Variable net : nat -> request F -> result (response F).
(** [str.upper] and [round(_, 2)] of the builtins. *)
Variable str_upper : string -> string.
Variable round2 : F -> F.
(** The sidebar settings. *)
Variables (rsi_period : Z) (low_th high_th : F).

Definition py_upper (v : json F) : result string :=
  match v with
  | JStr s => Ok (str_upper s)
  | _ => Err AttributeError
  end.

(** Line 159: [rsi is not None and (rsi <= low_th or rsi >= high_th)] *)
Definition is_alert (rsi : option F) : bool :=
  match rsi with
  | Some v => fle v low_th || fle high_th v
  | None => false
  end.

(** Line 186: the alert is reported as ["<="] the low threshold when
    [rsi <= low_th], as [">="] the high threshold otherwise. *)
Definition alert_direction (v : F) : direction :=
  if fle v low_th then Oversold else Overbought.

Definition classify (rsi : option F) : option direction :=
  match rsi with
  | Some v => if is_alert rsi then Some (alert_direction v) else None
  | None => None
  end.

Definition alert : Type := json F * string * F * json F.

Local Open Scope world_scope.

(** Lines 146-148: the body of the [try] block. *)
Definition rsi_of_candles (coin_id : json F) : M F (option F) :=
  ohlc <- fetch_ohlc net coin_id 1 ;;
  closes <- lift (closes_from_ohlc ohlc) ;;
  lift (compute_rsi closes rsi_period).

(** Lines 145-150: the [try] block with its [except Exception], which
    sets [rsi = None]. *)
Definition coin_rsi (coin_id : json F) : M F (option F) :=
  mtry (rsi_of_candles coin_id) (fun _ => mret None).

(** Lines 140-160: one iteration of [for coin in coins]. *)
Definition process_coin (acc : list (row F) * list alert) (coin : json F)
  : M F (list (row F) * list alert) :=
  let '(rows, alerts) := acc in
  coin_id <- lift (py_get coin "id" JNull) ;;
  name <- lift (py_get coin "name" coin_id) ;;
  sym <- lift (py_get coin "symbol" (JStr "")) ;;
  symbol <- lift (py_upper sym) ;;
  price <- lift (py_get coin "current_price" JNull) ;;
  rsi <- coin_rsi coin_id ;;
  let rows' := rows ++ [{| Name := name; Symbol := symbol; Price := price;
                           RSI := option_map round2 rsi |}] in
  let alerts' := match rsi with
                 | Some v => if is_alert rsi
                             then alerts ++ [(name, symbol, v, price)]
                             else alerts
                 | None => alerts
                 end in
  mret (rows', alerts').

Definition main_loop (coins : list (json F)) : M F (list (row F) * list alert) :=
  mfor_each process_coin ([], []) coins.

(** *** [DataFrame(rows).sort_values(by=["RSI"], ascending=True,
        na_position="last")]

    pandas sorts the rows whose key is not null and appends the rows
    whose key is null; a frame built from no row has no ["RSI"]
    column and the call raises [KeyError].  The order pandas gives to
    rows of equal key is not specified; the model keeps them in their
    original order. *)
Definition has_rsi (r : row F) : bool :=
  match RSI r with Some _ => true | None => false end.

Definition rsi_leb (r1 r2 : row F) : bool :=
  match RSI r1, RSI r2 with
  | Some x, Some y => fle x y
  | _, None => true
  | None, Some _ => false
  end.

Fixpoint insert_row (r : row F) (l : list (row F)) : list (row F) :=
  match l with
  | [] => [r]
  | r' :: l' => if rsi_leb r r' then r :: l else r' :: insert_row r l'
  end.

Definition argsort (l : list (row F)) : list (row F) :=
  fold_right insert_row [] l.

Definition sort_values (rows : list (row F)) : result (list (row F)) :=
  match rows with
  | [] => Err KeyError
  | _ :: _ => Ok (argsort (filter has_rsi rows)
                  ++ filter (fun r => negb (has_rsi r)) rows)
  end.

(** Lines 136-162: the table and the alerts of one run over [coins]. *)
Definition report (coins : list (json F)) : M F (list (row F) * list alert) :=
  ' (rows, alerts) <- main_loop coins ;;
  df <- lift (sort_values rows) ;;
  mret (df, alerts).

End Orchestrator.
Arguments alert F : clear implicits.


(** ** The whole cycle, the alert panel and the notifier *)

Section Cycle.
Context {F : Type} `{PyFloat F}.
Variable net : nat -> request F -> result (response F).
Variable str_upper : string -> string.
Variable round2 : F -> F.
Variables (rsi_period : Z) (low_th high_th : F).

(** Lines 134-162: the ranked list, then the table and the alerts.  The
    call of [fetch_top_coins] is in no [try] block. *)
Definition run_cycle (num_coins : Z) (w : world F)
  : option (result (list (row F) * list (alert F)) * world F) :=
  match fetch_top_coins net num_coins w with
  | None => None
  | Some (Err e, w') => Some (Err e, w')
  | Some (Ok coins, w') =>
      Some (report net str_upper round2 rsi_period low_th high_th coins w')
  end.

End Cycle.

(** What the left column shows (lines 166-175). *)
Inductive panel_item (F : Type) : Type :=
| PanelCount (n : Z)
| PanelAlert (a : alert F)
| PanelMore (hidden : Z)
| PanelNoAlert.
Arguments PanelCount {F} n.
Arguments PanelAlert {F} a.
Arguments PanelMore {F} hidden.
Arguments PanelNoAlert {F}.

Definition alerts_panel {F : Type} (alerts : list (alert F)) : list (panel_item F) :=
  match alerts with
  | [] => [PanelNoAlert]
  | _ :: _ =>
      PanelCount (Z.of_nat (length alerts))
      :: map PanelAlert (py_slice_to alerts 20)
      ++ (if 20 <? Z.of_nat (length alerts)
          then [PanelMore (Z.of_nat (length alerts) - 20)]
          else [])
  end.

(** One [sendMessage] call: the token of the URL and the two fields of
    the payload that vary. *)
Record telegram_post : Type := {
  post_token : string;
  post_chat_id : string;
  post_text : string
}.

(** What the button of lines 183-192 ends with. *)
Inductive banner : Type :=
| Delivered (count : Z)
| NotDelivered.

Section Notifier.
Context {F : Type} `{PyFloat F}.

(** The notifier's server: what the [k]-th post of the run answers, or
    the exception [requests.post] raises. *)
Variable telegram : nat -> telegram_post -> result (response F).
(** The f-string of line 186 as a function of the six values it
    interpolates. *)
Variable alert_text : string -> F -> json F -> string -> F -> json F -> string.
Variables (low_th high_th : F).

(** Lines 121-129, over the log of the posts sent so far. *)
Definition notify_telegram (text token chat_id : string)
           (posts : list telegram_post) : bool * list telegram_post :=
  let post := {| post_token := token; post_chat_id := chat_id;
                 post_text := text |} in
  match (r <- telegram (length posts) post ;; raise_for_status r) with
  | Ok _ => (true, posts ++ [post])
  | Err _ => (false, posts ++ [post])
  end.

(** Line 186. *)
Definition alert_line (a : alert F) : string :=
  let '(name, symbol, rsi, price) := a in
  alert_text (if fle rsi low_th then "<=" else ">=")
             (if fle rsi low_th then low_th else high_th)
             name symbol rsi price.

(** Lines 185-188: the loop, [sent] being the count so far. *)
Fixpoint send_alerts (token chat_id : string) (alerts : list (alert F))
         (sent : Z) (posts : list telegram_post) : Z * list telegram_post :=
  match alerts with
  | [] => (sent, posts)
  | a :: rest =>
      let '(ok, posts') := notify_telegram (alert_line a) token chat_id posts in
      send_alerts token chat_id rest (if ok then sent + 1 else sent) posts'
  end.

(** Lines 182-192; [pressed] is what [st.button] returns, and [None]
    means that nothing was attempted. *)
Definition telegram_panel (token chat_id : string) (alerts : list (alert F))
           (pressed : bool) (posts : list telegram_post)
  : option banner * list telegram_post :=
  if negb (String.eqb token "") && negb (String.eqb chat_id "")
     && match alerts with [] => false | _ :: _ => true end
  then
    if pressed then
      let '(sent, posts') := send_alerts token chat_id alerts 0 posts in
      (Some (if 0 <? sent then Delivered sent else NotDelivered), posts')
    else (None, posts)
  else (None, posts).

End Notifier.

(** ** Specification-side definitions *)

(** The Wilder algorithm in the words of the specification, over exact
    rationals: the deltas of consecutive closes, the seed as the means
    of the first [period] gains and losses, one smoothing update per
    later delta, and the reading. *)
Module Wilder.

(** Consecutive closes [(close_{i-1}, close_i)], oldest first. *)
Fixpoint deltas (closes : list Q) : list (Q * Q) :=
  match closes with
  | prev :: (cur :: _) as rest => (prev, cur) :: deltas rest
  | _ => []
  end.

Definition gain (d : Q * Q) : Q := Qmax (snd d - fst d) 0.
Definition loss (d : Q * Q) : Q := Qmax (fst d - snd d) 0.

Definition mean (l : list Q) (n : Z) : Q :=
  fold_right Qplus 0%Q l / inject_Z n.

Definition seed (closes : list Q) (period : Z) : Q * Q :=
  let first := firstn (Z.to_nat period) (deltas closes) in
  (mean (map gain first) period, mean (map loss first) period).

Definition update (period : Z) (avg : Q * Q) (d : Q * Q) : Q * Q :=
  ((fst avg * inject_Z (period - 1) + gain d) / inject_Z period,
   (snd avg * inject_Z (period - 1) + loss d) / inject_Z period)%Q.

Definition averages (closes : list Q) (period : Z) : Q * Q :=
  fold_left (update period) (skipn (Z.to_nat period) (deltas closes))
            (seed closes period).

Definition reading (avg : Q * Q) : Q :=
  (100 - 100 / (1 + fst avg / snd avg))%Q.

End Wilder.

(** A price series that never falls. *)
Definition non_decreasing (closes : list Q) : bool :=
  forallb (fun d => Qle_bool (fst d) (snd d)) (Wilder.deltas closes).

(** A candle row is malformed when it is not an array of at least five
    entries. *)
Definition malformed {F : Type} (row : json F) : Prop :=
  forall items, row = JArr items -> (length items < 5)%nat.

(** The price series of a candle sequence: malformed rows skipped, the
    fifth entry of every other row kept, in order. *)
Inductive price_series {F : Type} : list (json F) -> list (json F) -> Prop :=
| ps_nil : price_series [] []
| ps_skip row ohlc closes :
    malformed row -> price_series ohlc closes ->
    price_series (row :: ohlc) closes
| ps_keep items close ohlc closes :
    nth_error items 4 = Some close -> price_series ohlc closes ->
    price_series (JArr items :: ohlc) (close :: closes).

(** What the [k]-th request of a run yields once [raise_for_status] and
    [json] have been applied to the provider's answer. *)
Definition attempt {F : Type} (net : nat -> request F -> result (response F))
           (k : nat) (rq : request F) : result (list (json F)) :=
  r <- net k rq ;; _ <- raise_for_status r ;; response_json r.

(** Paging through the markets endpoint in the words of the
    specification, for a limit [n] and a page size [per_page]:
    [paging net n per_page k page results rqs out] says that, with
    [results] collected so far and [k] requests sent so far, asking for
    the pages [page], [page + 1], ... sends the requests [rqs] and ends
    with [out].  Paging ends when [n] rows are collected, when a page
    request fails (the failure is the outcome), or with a page of fewer
    rows than requested. *)
Inductive paging {F : Type} (net : nat -> request F -> result (response F))
          (n per_page : Z)
  : nat -> Z -> list (json F) -> list (request F) -> result (list (json F)) -> Prop :=
| paging_enough k page results :
    n <= Z.of_nat (length results) ->
    paging net n per_page k page results [] (Ok (py_slice_to results n))
| paging_failed k page results e :
    Z.of_nat (length results) < n ->
    attempt net k (GetMarkets per_page page) = Err e ->
    paging net n per_page k page results [GetMarkets per_page page] (Err e)
| paging_short k page results batch :
    Z.of_nat (length results) < n ->
    attempt net k (GetMarkets per_page page) = Ok batch ->
    Z.of_nat (length batch) < per_page ->
    paging net n per_page k page results [GetMarkets per_page page]
           (Ok (py_slice_to (results ++ batch) n))
| paging_full k page results batch rqs out :
    Z.of_nat (length results) < n ->
    attempt net k (GetMarkets per_page page) = Ok batch ->
    per_page <= Z.of_nat (length batch) ->
    paging net n per_page (S k) (page + 1) (results ++ batch) rqs out ->
    paging net n per_page k page results (GetMarkets per_page page :: rqs) out.

(** An asset of the ranked list as the main loop needs it: an object
    whose ["symbol"], when present, is a string. *)
Definition asset_ok {F : Type} (coin : json F) : bool :=
  match coin with
  | JObj fields =>
      match find (fun kv => String.eqb (fst kv) "symbol") fields with
      | Some (_, JStr _) => true
      | Some _ => false
      | None => true
      end
  | _ => false
  end.

(** The reading the main loop keeps for an asset from the outcome of
    its [try] block: undefined when the block raised. *)
Definition reading_of {F : Type} (outcome : result (option F)) : option F :=
  match outcome with
  | Ok rsi => rsi
  | Err _ => None
  end.

(** Ascending order of readings, undefined readings last. *)
Definition reading_le (a b : option Q) : Prop :=
  match a, b with
  | Some x, Some y => (x <= y)%Q
  | _, None => True
  | None, Some _ => False
  end.

(** The order of the table's rows. *)
Definition row_le (r1 r2 : row Q) : Prop := reading_le (RSI r1) (RSI r2).

(** *** The arithmetic of [compute_rsi] on rational closes

    What the two loops compute when every close is a rational: the
    change at index [i], the gain and the loss the code derives from a
    change, one smoothing step, the final averages and the reading. *)

Definition change_at (closes : list Q) (i : Z) : Q :=
  (nth (Z.to_nat i) closes 0 - nth (Z.to_nat (i - 1)) closes 0)%Q.

Definition q_gain (change : Q) : Q := py_max change (of_int 0).
Definition q_loss (change : Q) : Q := fabs (py_min change (of_int 0)).

Definition q_step (period : Z) (avg : Q * Q) (change : Q) : Q * Q :=
  ((fst avg * inject_Z (period - 1) + q_gain change) / inject_Z period,
   (snd avg * inject_Z (period - 1) + q_loss change) / inject_Z period)%Q.

Definition q_averages (closes : list Q) (period : Z) : Q * Q :=
  let seed := map (change_at closes) (py_range 1 (period + 1)) in
  let rest := map (change_at closes)
                  (py_range (period + 1) (Z.of_nat (length closes))) in
  fold_left (q_step period) rest
            ((py_sum (map q_gain seed) / inject_Z period)%Q,
             (py_sum (map q_loss seed) / inject_Z period)%Q).

Definition q_reading (avg : Q * Q) : Q :=
  if flt (fabs (snd avg)) f1em12 then 100%Q
  else (100 - 100 / (1 + fst avg / snd avg))%Q.

(** The pair of closes around step [k] and the change across a pair. *)
Definition pair_at (closes : list Q) (k : nat) : Q * Q :=
  (nth k closes 0%Q, nth (S k) closes 0%Q).

Definition dchange (d : Q * Q) : Q := (snd d - fst d)%Q.

(** Equality of two pairs of averages as rationals. *)
Definition avg_eq (a b : Q * Q) : Prop :=
  (fst a == fst b)%Q /\ (snd a == snd b)%Q.

(** *** Sample data *)

Definition qcloses (l : list Q) : list (json Q) := map JNum l.
Definition fcloses (l : list float) : list (json float) := map JNum l.

(** The seven closes of the specification's short-history scenario. *)
Definition seven_closes : list float :=
  [44; 44.25; 44.5; 43.75; 44.5; 44; 44.25]%float.

(** Five finite, non-negative closes whose gains overflow when summed. *)
Definition overflowing_closes : list float :=
  [0; 0x1p1023; 0; 0x1p1023; 0]%float.

(** [round(x, 2)] on exact rationals: to the nearest hundredth, ties to
    the even one. *)
Definition Q_round2 (x : Q) : Q :=
  let y := (x * 100)%Q in
  let f := Qfloor y in
  let up := match (y - inject_Z f ?= 1 # 2)%Q with
            | Lt => false
            | Gt => true
            | Eq => Z.odd f
            end in
  (inject_Z (if up then f + 1 else f) / 100)%Q.

(** [str.upper] on ASCII letters. *)
Fixpoint ascii_upper (s : string) : string :=
  match s with
  | EmptyString => EmptyString
  | String c s' =>
      let n := Ascii.nat_of_ascii c in
      String (if ((97 <=? n) && (n <=? 122))%nat
              then Ascii.ascii_of_nat (n - 32) else c)
             (ascii_upper s')
  end.

(** The seven closes as rationals, a falling and a rising series. *)
Definition seven_closes_q : list Q :=
  [44; 44.25; 44.5; 43.75; 44.5; 44; 44.25]%Q.

Definition falling_closes : list Q := [12; 11; 10; 9]%Q.

Definition rising_closes : list Q := [1; 2; 2; 5]%Q.

(** A candle row closing at [c]. *)
Definition candle (t c : Q) : json Q :=
  JArr [JNum t; JNum c; JNum c; JNum c; JNum c].

Definition asset (id name symbol : string) (price : Q) : json Q :=
  JObj [("id", JStr id); ("name", JStr name); ("symbol", JStr symbol);
        ("current_price", JNum price)]%string.

(** A provider that answers 500 for the candles of ["eth"], serves four
    falling candles for ["sol"] and, for every other coin, four candles
    around a row that is not a candle. *)
Definition sample_net (k : nat) (rq : request Q) : result (response Q) :=
  match rq with
  | GetOhlc (JStr id) _ =>
      if String.eqb id "eth"
      then Ok {| status_code := 500; body := None |}
      else if String.eqb id "sol"
      then Ok {| status_code := 200;
                 body := Some [candle 1 12; candle 2 11; candle 3 10;
                               candle 4 10] |}
      else Ok {| status_code := 200;
                 body := Some [candle 1 10; candle 2 11; candle 3 12;
                               JStr "garbage"; candle 4 11] |}
  | GetOhlc _ _ => Ok {| status_code := 404; body := None |}
  | GetMarkets per_page page =>
      Ok {| status_code := 200;
            body := Some (if page =? 1
                          then [asset "btc" "Bitcoin" "btc" 60000;
                                asset "eth" "Ethereum" "eth" 3000;
                                asset "sol" "Solana" "sol" 150]
                          else []) |}
  end.

(** A provider that is rate-limited on the first [limited] requests of
    a run and serves two candles afterwards. *)
Definition rate_limited_net (limited : nat) (k : nat) (rq : request Q)
  : result (response Q) :=
  if (k <? limited)%nat
  then Ok {| status_code := 429; body := None |}
  else Ok {| status_code := 200; body := Some [candle 1 10; candle 2 11] |}.

Definition sample_coins : list (json Q) :=
  [asset "btc" "Bitcoin" "btc" 60000; asset "eth" "Ethereum" "eth" 3000;
   asset "sol" "Solana" "sol" 150].

Definition w0 {F : Type} : world F := {| sent := []; slept := [] |}.

(** *** Definitions for the further properties *)

(** A number, for the arithmetic of [compute_rsi]. *)
Definition is_number {F : Type} (v : json F) : bool :=
  match v with
  | JNum _ | JBool _ => true
  | _ => false
  end.

(** A price series that never rises. *)
Definition non_increasing (closes : list Q) : bool :=
  forallb (fun d => Qle_bool (snd d) (fst d)) (Wilder.deltas closes).

(** The test of [closes_from_ohlc], as a boolean. *)
Definition is_candle_row {F : Type} (row : json F) : bool :=
  match row with
  | JArr items => (5 <=? length items)%nat
  | _ => false
  end.

(** Whether the outcome of a request is the rate-limit error that
    [fetch_ohlc] retries. *)
Definition is_429 {A : Type} (outcome : result A) : bool :=
  match outcome with
  | Err (HTTPError (Some code)) => code =? 429
  | _ => false
  end.

(** The alerts a panel writes and the number it only counts. *)
Definition panel_alerts {F : Type} (items : list (panel_item F)) : list (alert F) :=
  flat_map (fun it => match it with PanelAlert a => [a] | _ => [] end) items.

Definition panel_hidden {F : Type} (items : list (panel_item F)) : Z :=
  fold_right (fun it acc => match it with PanelMore n => n + acc | _ => acc end)
             0 items.

(** The post [notify_telegram] sends for an alert. *)
Definition post_of {F : Type} `{PyFloat F}
           (alert_text : string -> F -> json F -> string -> F -> json F -> string)
           (low_th high_th : F) (token chat_id : string) (a : alert F)
  : telegram_post :=
  {| post_token := token; post_chat_id := chat_id;
     post_text := alert_line alert_text low_th high_th a |}.

(** Whether the [k]-th post is delivered: answered, with a status that
    [raise_for_status] accepts. *)
Definition delivered {F : Type}
           (telegram : nat -> telegram_post -> result (response F))
           (k : nat) (post : telegram_post) : bool :=
  match telegram k post with
  | Ok r => negb ((400 <=? status_code r) && (status_code r <? 600))
  | Err _ => false
  end.

(** The alerts of a table: each one crossed a threshold and has its row,
    with the rounded reading. *)
Definition alerts_match {F : Type} `{PyFloat F} (round2 : F -> F)
           (low_th high_th : F) (rows : list (row F)) (alerts : list (alert F))
  : Prop :=
  Forall (fun a : alert F =>
            let '(name, symbol, v, price) := a in
            is_alert low_th high_th (Some v) = true /\
            In {| Name := name; Symbol := symbol; Price := price;
                  RSI := Some (round2 v) |} rows)
         alerts.

(** The subtraction at index [i] has an operand that is not a number. *)
Definition non_numeric_change {F : Type} (closes : list (json F)) (i : Z) : Prop :=
  is_number (nth (Z.to_nat i) closes JNull)
  && is_number (nth (Z.to_nat (i - 1)) closes JNull) = false.

(** An asset whose symbol is null. *)
Definition nameless_asset : json Q :=
  JObj [("id", JStr "xyz"); ("symbol", JNull)]%string.

(** How many of the posts [new], sent from the [k]-th on, are
    delivered. *)
Fixpoint delivered_count {F : Type}
         (telegram : nat -> telegram_post -> result (response F))
         (k : nat) (new : list telegram_post) : Z :=
  match new with
  | [] => 0
  | post :: rest =>
      (if delivered telegram k post then 1 else 0)
      + delivered_count telegram (S k) rest
  end.

(** A provider whose third candle closes at a string. *)
Definition text_close_net (k : nat) (rq : request Q) : result (response Q) :=
  Ok {| status_code := 200;
        body := Some [candle 1 10; candle 2 11;
                      JArr [JNum 3%Q; JNum 11%Q; JNum 11%Q; JNum 11%Q; JStr "n/a"];
                      candle 4 12] |}.

(** A notifier's server that refuses every second post. *)
Definition flaky_telegram (k : nat) (post : telegram_post)
  : result (response Q) :=
  if Nat.even k then Ok {| status_code := 200; body := None |}
  else Ok {| status_code := 403; body := None |}.

(** A stand-in for the message text. *)
Definition plain_text (tag : string) (threshold : Q) (name : json Q)
           (symbol : string) (rsi : Q) (price : json Q) : string :=
  (tag ++ " " ++ symbol)%string.

Definition sample_alerts : list (alert Q) :=
  [(JStr "Solana", "SOL"%string, 0%Q, JNum 150%Q);
   (JStr "Pepe", "PEPE"%string, 90%Q, JNum 1%Q);
   (JStr "Doge", "DOGE"%string, 10%Q, JNull)].

(** ** Theorems *)

(** *** The error monad and the Python builtins *)

Lemma for_each_app {S I : Type} (body : S -> I -> result S) (l1 l2 : list I) (s : S) :
  for_each body s (l1 ++ l2) = (s' <- for_each body s l1 ;; for_each body s' l2).
Proof.
  revert s; induction l1 as [|i l1 IH]; intros s; simpl; [reflexivity|].
  destruct (body s i) as [s'|e]; simpl; [apply IH | reflexivity].
Qed.

Lemma py_index_nth_error {A : Type} (l : list A) (i : nat) (x : A) :
  nth_error l i = Some x -> py_index l (Z.of_nat i) = Ok x.
Proof.
  intros Hx. unfold py_index.
  assert (Hlt : (i < length l)%nat) by (apply nth_error_Some; congruence).
  destruct (Z.ltb_spec (Z.of_nat i) 0) as [Hneg|_]; [lia|].
  destruct (Z.leb_spec 0 (Z.of_nat i)) as [_|Hneg]; [|lia].
  destruct (Z.ltb_spec (Z.of_nat i) (Z.of_nat (length l))) as [_|Hge]; [|lia].
  simpl. rewrite Nat2Z.id, Hx. reflexivity.
Qed.

(** *** C2: too little history *)

(** C2. A closes list with fewer than [period + 1] elements has no
    reading: [compute_rsi] returns [None], whatever the closes are and
    for either float instance.  The witness is the specification's
    series of seven closes with period 13. *)
Theorem compute_rsi_short_history :
  forall (F : Type) (ops : PyFloat F) (closes : list (json F)) (period : Z),
    Z.of_nat (length closes) < period + 1 ->
    compute_rsi closes period = Ok None.
Proof.
  intros F ops closes period Hshort. unfold compute_rsi.
  destruct (Z.ltb_spec (Z.of_nat (length closes)) (period + 1)) as [_|Hge].
  - reflexivity.
  - lia.
Qed.

Lemma compute_rsi_short_history_witness :
  Z.of_nat (length (fcloses seven_closes)) < 13 + 1 /\
  compute_rsi (fcloses seven_closes) 13 = Ok None.
Proof.
  split.
  - vm_compute. reflexivity.
  - apply compute_rsi_short_history. vm_compute. reflexivity.
Defined.

(** *** C10: the price series of a candle sequence *)

Lemma malformed_not_array {F : Type} (row : json F) :
  (forall items, row <> JArr items) -> malformed row.
Proof. intros Hrow items Heq. destruct (Hrow items Heq). Qed.

Lemma keep_close_loop {F : Type} (ohlc : list (json F)) :
  forall acc, exists closes,
    for_each (@keep_close F) acc ohlc = Ok (acc ++ closes) /\
    price_series ohlc closes.
Proof.
  induction ohlc as [|row ohlc IH]; intros acc.
  - exists []. simpl. rewrite app_nil_r. split; [reflexivity | constructor].
  - simpl.
    assert (Hskip : malformed row -> keep_close acc row = Ok acc ->
                    exists closes, (s' <- keep_close acc row ;;
                                    for_each (@keep_close F) s' ohlc)
                                   = Ok (acc ++ closes) /\
                                   price_series (row :: ohlc) closes).
    { intros Hbad Hk. rewrite Hk. simpl.
      destruct (IH acc) as [closes [Hrun Hps]].
      exists closes. split; [exact Hrun | now constructor]. }
    destruct row as [ | b | x | s | items | fields ];
      try (apply Hskip; [apply malformed_not_array; discriminate | reflexivity]).
    unfold keep_close at 1.
    destruct (Z.leb_spec 5 (Z.of_nat (length items))) as [Hlong|Hfew].
    + destruct (nth_error items 4) as [c|] eqn:Hc.
      * change 4%Z with (Z.of_nat 4).
        rewrite (py_index_nth_error _ _ Hc). simpl.
        destruct (IH (acc ++ [c])) as [closes [Hrun Hps]].
        exists (c :: closes). split.
        -- rewrite Hrun, <- app_assoc. reflexivity.
        -- now constructor.
      * apply nth_error_None in Hc. lia.
    + simpl. destruct (IH acc) as [closes [Hrun Hps]].
      exists closes. split; [exact Hrun|].
      constructor; [|exact Hps].
      intros items' Heq. injection Heq as <-. lia.
Qed.

(** The relation [price_series] determines the series. *)
Lemma price_series_functional {F : Type} (ohlc : list (json F)) :
  forall c1 c2, price_series ohlc c1 -> price_series ohlc c2 -> c1 = c2.
Proof.
  induction ohlc as [|row ohlc IH]; intros c1 c2 H1 H2.
  - inversion H1; inversion H2; reflexivity.
  - inversion H1 as [ | r o c Hbad1 Hps1 | items1 cl1 o c Hn1 Hps1 ]; subst;
      inversion H2 as [ | r' o' c' Hbad2 Hps2 | items2 cl2 o' c' Hn2 Hps2 ]; subst.
    + now apply IH.
    + assert (Hlt : (4 < length items2)%nat) by (apply nth_error_Some; congruence).
      specialize (Hbad1 items2 eq_refl). lia.
    + assert (Hlt : (4 < length items1)%nat) by (apply nth_error_Some; congruence).
      specialize (Hbad2 items1 eq_refl). lia.
    + f_equal; [congruence | now apply IH].
Qed.


Example closes_from_ohlc_sample :
  closes_from_ohlc [candle 1 10; JStr "garbage"; JArr [JNum 2%Q; JNum 3%Q];
                    JNull; candle 2 11] =
  Ok [JNum 10%Q; JNum 11%Q].
Proof. reflexivity. Qed.

(** *** C7: one retry after a 429 *)

Lemma get_json_attempt {F : Type} (net : nat -> request F -> result (response F))
      (rq : request F) (w : world F) :
  get_json net rq w =
  (attempt net (length (sent w)) rq,
   {| sent := sent w ++ [rq]; slept := slept w |}).
Proof.
  unfold get_json, attempt, mbind, http_get, lift.
  destruct (net (length (sent w)) rq) as [r|e]; simpl; [|reflexivity].
  destruct (raise_for_status r) as [[]|e]; reflexivity.
Qed.

(** A response with a 4xx or 5xx status is an [HTTPError] carrying
    that status. *)
Lemma attempt_http_error {F : Type} (net : nat -> request F -> result (response F))
      (k : nat) (rq : request F) (r : response F) :
  net k rq = Ok r ->
  400 <= status_code r < 600 ->
  attempt net k rq = Err (HTTPError (Some (status_code r))).
Proof.
  intros Hr Hstatus. unfold attempt, raise_for_status. rewrite Hr. cbn [rbind].
  destruct (Z.leb_spec 400 (status_code r)) as [_|Hlow]; [|lia].
  destruct (Z.ltb_spec (status_code r) 600) as [_|Hhigh]; [|lia].
  reflexivity.
Qed.


(** The specification's scenario: a 429 on the first request and a
    success on the second give the second payload after one sleep of 5
    seconds; a second 429 is raised to the caller, still after one
    sleep. *)
Example fetch_ohlc_retry_succeeds :
  fetch_ohlc (rate_limited_net 1) (JStr "btc") 1 w0 =
  (Ok [candle 1 10; candle 2 11],
   {| sent := [GetOhlc (JStr "btc") 1; GetOhlc (JStr "btc") 1];
      slept := [5] |}).
Proof. reflexivity. Qed.

Example fetch_ohlc_second_429_raises :
  fetch_ohlc (rate_limited_net 2) (JStr "btc") 1 w0 =
  (Err (HTTPError (Some 429)),
   {| sent := [GetOhlc (JStr "btc") 1; GetOhlc (JStr "btc") 1];
      slept := [5] |}).
Proof. reflexivity. Qed.

(** *** C5: classification against the thresholds *)

(** C5. With [low < high], a defined reading [v] is an Oversold alert
    exactly when [v <= low], an Overbought alert exactly when
    [v >= high], both boundaries included, and no alert exactly when it
    lies strictly between the thresholds; an undefined reading is never
    an alert; and the test of the main loop fires exactly when the
    classification is an alert.  The witness takes the thresholds 25 and
    75 with the readings 25 and 50. *)
Theorem classify_inclusive_thresholds :
  forall (low high v : Q),
    (low < high)%Q ->
    (classify low high (Some v) = Some Oversold <-> (v <= low)%Q) /\
    (classify low high (Some v) = Some Overbought <-> (high <= v)%Q) /\
    (classify low high (Some v) = None <-> (low < v /\ v < high)%Q) /\
    classify low high None = None /\
    is_alert low high None = false /\
    (is_alert low high (Some v) = true <-> classify low high (Some v) <> None).
Proof.
  intros low high v Hlh.
  unfold classify, is_alert, alert_direction. simpl.
  destruct (Qle_bool v low) eqn:Hlow; destruct (Qle_bool high v) eqn:Hhigh; simpl;
    try (apply Qle_bool_iff in Hlow); try (apply Qle_bool_iff in Hhigh);
    try (assert (Hnl : ~ (v <= low)%Q)
          by (intros Hc; apply Qle_bool_iff in Hc; congruence));
    try (assert (Hnh : ~ (high <= v)%Q)
          by (intros Hc; apply Qle_bool_iff in Hc; congruence));
    repeat split; intros; try congruence; try lra; try discriminate;
    try (exfalso; lra).
Qed.

Lemma classify_inclusive_thresholds_witness :
  (25 < 75)%Q /\
  classify 25%Q 75%Q (Some 25%Q) = Some Oversold /\
  classify 25%Q 75%Q (Some 50%Q) = None.
Proof.
  assert (Hlh : (25 < 75)%Q) by reflexivity.
  split; [exact Hlh|]. split.
  - apply (proj1 (classify_inclusive_thresholds 25 Hlh)). discriminate.
  - apply (proj1 (proj2 (proj2 (classify_inclusive_thresholds 50 Hlh)))).
    split; reflexivity.
Defined.

(** *** [compute_rsi] on rational closes *)

Lemma py_range_bounds (a b : Z) :
  Forall (fun i => a <= i < b) (py_range a b).
Proof.
  unfold py_range. apply Forall_forall. intros i Hin.
  apply in_map_iff in Hin. destruct Hin as [k [<- Hk]].
  apply in_seq in Hk. lia.
Qed.

Lemma py_index_qcloses (closes : list Q) (i : Z) :
  0 <= i < Z.of_nat (length closes) ->
  py_index (qcloses closes) i = Ok (JNum (nth (Z.to_nat i) closes 0%Q)).
Proof.
  intros Hi. rewrite <- (Z2Nat.id i) at 1 by lia.
  apply py_index_nth_error. unfold qcloses.
  apply map_nth_error. apply nth_error_nth'. lia.
Qed.

Lemma Qeq_bool_false (x y : Q) : ~ (x == y)%Q -> Qeq_bool x y = false.
Proof.
  intros Hne. destruct (Qeq_bool x y) eqn:Heq; [|reflexivity].
  apply Qeq_bool_iff in Heq. contradiction.
Qed.

Lemma py_truediv_Q (x y : Q) :
  ~ (y == 0)%Q -> py_truediv x y = Ok (x / y)%Q.
Proof.
  intros Hy. unfold py_truediv. simpl.
  change (inject_Z 0) with 0%Q. rewrite (Qeq_bool_false Hy). reflexivity.
Qed.

Lemma inject_Z_nonzero (z : Z) : z <> 0 -> ~ (inject_Z z == 0)%Q.
Proof.
  intros Hz Heq. unfold Qeq in Heq. simpl in Heq. lia.
Qed.

Lemma change_qcloses (closes : list Q) (i : Z) :
  1 <= i < Z.of_nat (length closes) ->
  (c_i <- py_index (qcloses closes) i ;;
   c_prev <- py_index (qcloses closes) (i - 1) ;;
   py_sub c_i c_prev) = Ok (change_at closes i).
Proof.
  intros Hi. rewrite !py_index_qcloses by lia. reflexivity.
Qed.

Lemma seed_step_qcloses (closes : list Q) (gains losses : list Q) (i : Z) :
  1 <= i < Z.of_nat (length closes) ->
  seed_step (qcloses closes) (gains, losses) i =
  Ok (gains ++ [q_gain (change_at closes i)],
      losses ++ [q_loss (change_at closes i)]).
Proof.
  intros Hi. unfold seed_step. rewrite !py_index_qcloses by lia. reflexivity.
Qed.

Lemma smooth_step_qcloses (closes : list Q) (period : Z) (avg : Q * Q) (i : Z) :
  period <> 0 ->
  1 <= i < Z.of_nat (length closes) ->
  smooth_step (qcloses closes) period avg i =
  Ok (q_step period avg (change_at closes i)).
Proof.
  intros Hp Hi. destruct avg as [avg_gain avg_loss].
  unfold smooth_step. rewrite !py_index_qcloses by lia. simpl.
  rewrite !py_truediv_Q by (apply inject_Z_nonzero; exact Hp).
  reflexivity.
Qed.

Lemma seed_loop_qcloses (closes : list Q) (idxs : list Z) :
  Forall (fun i => 1 <= i < Z.of_nat (length closes)) idxs ->
  forall gains losses,
    for_each (seed_step (qcloses closes)) (gains, losses) idxs =
    Ok (gains ++ map q_gain (map (change_at closes) idxs),
        losses ++ map q_loss (map (change_at closes) idxs)).
Proof.
  induction 1 as [|i idxs Hi _ IH]; intros gains losses; cbn [for_each map].
  - rewrite !app_nil_r. reflexivity.
  - rewrite (seed_step_qcloses _ _ _ Hi). cbn [rbind].
    rewrite IH, <- !app_assoc. reflexivity.
Qed.

Lemma smooth_loop_qcloses (closes : list Q) (period : Z) (idxs : list Z) :
  period <> 0 ->
  Forall (fun i => 1 <= i < Z.of_nat (length closes)) idxs ->
  forall avg,
    for_each (smooth_step (qcloses closes) period) avg idxs =
    Ok (fold_left (q_step period) (map (change_at closes) idxs) avg).
Proof.
  intros Hp. induction 1 as [|i idxs Hi _ IH]; intros avg; cbn [for_each map fold_left].
  - reflexivity.
  - rewrite (smooth_step_qcloses _ _ Hp Hi). cbn [rbind]. apply IH.
Qed.

(** The two loops never raise on rational closes and compute
    [q_averages]. *)
Lemma smoothed_averages_qcloses (closes : list Q) (period : Z) :
  1 <= period ->
  period + 1 <= Z.of_nat (length closes) ->
  smoothed_averages (qcloses closes) period = Ok (q_averages closes period).
Proof.
  intros Hp Hlen. unfold smoothed_averages.
  rewrite seed_loop_qcloses.
  2:{ eapply Forall_impl; [|apply py_range_bounds]. cbv beta. intros i Hi. lia. }
  cbn [rbind app].
  rewrite !py_truediv_Q by (apply inject_Z_nonzero; lia).
  cbn [rbind]. unfold qcloses at 2. rewrite length_map.
  rewrite smooth_loop_qcloses; [reflexivity | lia |].
  eapply Forall_impl; [|apply py_range_bounds]. cbv beta. intros i Hi. lia.
Qed.

Lemma Qdiv_nonneg (x y : Q) : (0 <= x -> 0 <= y -> 0 <= x / y)%Q.
Proof.
  intros Hx Hy. unfold Qdiv. apply Qmult_le_0_compat; [exact Hx|].
  apply Qinv_le_0_compat. exact Hy.
Qed.

Lemma q_gain_nonneg (change : Q) : (0 <= q_gain change)%Q.
Proof.
  unfold q_gain, py_max. simpl. change (inject_Z 0) with 0%Q.
  destruct (Qle_bool 0 change) eqn:Hc; simpl.
  - apply Qle_bool_iff. exact Hc.
  - apply Qle_refl.
Qed.

Lemma q_loss_nonneg (change : Q) : (0 <= q_loss change)%Q.
Proof. unfold q_loss. simpl. apply Qabs_nonneg. Qed.

Lemma py_sum_nonneg (l : list Q) :
  Forall (fun x => 0 <= x)%Q l -> (0 <= py_sum l)%Q.
Proof.
  unfold py_sum. simpl. change (inject_Z 0) with 0%Q.
  assert (Hacc : forall a, (0 <= a)%Q -> Forall (fun x => 0 <= x)%Q l ->
                           (0 <= fold_left Qplus l a)%Q).
  { induction l as [|x l IH]; intros a Ha Hl; simpl; [exact Ha|].
    inversion Hl as [|? ? Hx Hl']; subst.
    apply IH; [|exact Hl']. lra. }
  apply Hacc. apply Qle_refl.
Qed.

Lemma inject_Z_nonneg (z : Z) : 0 <= z -> (0 <= inject_Z z)%Q.
Proof. intros Hz. change 0%Q with (inject_Z 0). now rewrite <- Zle_Qle. Qed.

Lemma q_step_nonneg (period : Z) (avg : Q * Q) (change : Q) :
  1 <= period ->
  (0 <= fst avg)%Q -> (0 <= snd avg)%Q ->
  (0 <= fst (q_step period avg change))%Q /\
  (0 <= snd (q_step period avg change))%Q.
Proof.
  intros Hp Hg Hl. unfold q_step. simpl.
  assert (Hp1 : (0 <= inject_Z (period - 1))%Q) by (apply inject_Z_nonneg; lia).
  assert (Hp0 : (0 <= inject_Z period)%Q) by (apply inject_Z_nonneg; lia).
  pose proof (q_gain_nonneg change) as Hgain.
  pose proof (q_loss_nonneg change) as Hloss.
  pose proof (Qmult_le_0_compat _ _ Hg Hp1) as Hgm.
  pose proof (Qmult_le_0_compat _ _ Hl Hp1) as Hlm.
  split; apply Qdiv_nonneg; try exact Hp0; lra.
Qed.

(** Both averages stay non-negative through the seed and every
    smoothing step. *)
Lemma q_averages_nonneg (closes : list Q) (period : Z) :
  1 <= period ->
  (0 <= fst (q_averages closes period))%Q /\
  (0 <= snd (q_averages closes period))%Q.
Proof.
  intros Hp. unfold q_averages.
  set (seed := map (change_at closes) (py_range 1 (period + 1))).
  set (rest := map (change_at closes) _).
  assert (Hfold : forall l avg, (0 <= fst avg)%Q -> (0 <= snd avg)%Q ->
                    (0 <= fst (fold_left (q_step period) l avg))%Q /\
                    (0 <= snd (fold_left (q_step period) l avg))%Q).
  { induction l as [|c l IH]; intros avg Hg Hl; simpl; [split; assumption|].
    destruct (q_step_nonneg avg c Hp Hg Hl) as [Hg' Hl']. now apply IH. }
  assert (Hp0 : (0 <= inject_Z period)%Q) by (apply inject_Z_nonneg; lia).
  apply Hfold; simpl; apply Qdiv_nonneg; try exact Hp0; apply py_sum_nonneg;
    apply Forall_forall; intros x Hin; apply in_map_iff in Hin;
    destruct Hin as [c [<- _]]; [apply q_gain_nonneg | apply q_loss_nonneg].
Qed.

(** The last four lines of [compute_rsi] never divide by zero once the
    averages are non-negative. *)
Lemma compute_rsi_qcloses (closes : list Q) (period : Z) :
  1 <= period ->
  period + 1 <= Z.of_nat (length closes) ->
  compute_rsi (qcloses closes) period =
  Ok (Some (q_reading (q_averages closes period))).
Proof.
  intros Hp Hlen. unfold compute_rsi.
  unfold qcloses at 1. rewrite length_map.
  destruct (Z.ltb_spec (Z.of_nat (length closes)) (period + 1)) as [Hlt|_]; [lia|].
  rewrite (smoothed_averages_qcloses _ Hp Hlen).
  destruct (q_averages_nonneg closes Hp) as [Hg Hl].
  destruct (q_averages closes period) as [g l]. cbn [rbind fst snd] in *.
  unfold q_reading. cbn [fst snd].
  destruct (flt (fabs l) f1em12) eqn:Hflat; [reflexivity|].
  simpl in Hflat. apply negb_false_iff, Qle_bool_iff in Hflat.
  rewrite (Qabs_pos l Hl) in Hflat.
  assert (Hlpos : (0 < l)%Q).
  { eapply Qlt_le_trans; [|exact Hflat]. reflexivity. }
  rewrite py_truediv_Q by (intros Hz; rewrite Hz in Hlpos; discriminate).
  cbn [rbind].
  assert (Hrs : (0 <= g / l)%Q) by (apply Qdiv_nonneg; [exact Hg | lra]).
  rewrite py_truediv_Q; [reflexivity|].
  simpl. intros Hz. change (inject_Z 1) with 1%Q in Hz. lra.
Qed.

(** The reading computed from non-negative averages lies in [0, 100]. *)
Lemma q_reading_range (avg : Q * Q) :
  (0 <= fst avg)%Q -> (0 <= snd avg)%Q ->
  (0 <= q_reading avg /\ q_reading avg <= 100)%Q.
Proof.
  destruct avg as [g l]. simpl. intros Hg Hl. unfold q_reading. cbn [fst snd].
  destruct (flt (fabs l) f1em12) eqn:Hflat; [split; discriminate|].
  simpl in Hflat. apply negb_false_iff, Qle_bool_iff in Hflat.
  rewrite (Qabs_pos l Hl) in Hflat.
  assert (Hlpos : (0 < l)%Q).
  { eapply Qlt_le_trans; [|exact Hflat]. reflexivity. }
  assert (Hrs : (0 <= g / l)%Q) by (apply Qdiv_nonneg; [exact Hg | lra]).
  set (rs := (g / l)%Q) in *.
  assert (Hq0 : (0 <= 100 / (1 + rs))%Q) by (apply Qdiv_nonneg; lra).
  assert (Hq1 : (100 / (1 + rs) <= 100)%Q).
  { apply Qle_shift_div_r; lra. }
  split; lra.
Qed.

(** *** From indices to consecutive pairs *)

Lemma seq_offset (a n : nat) : seq a n = map (Nat.add a) (seq 0 n).
Proof.
  revert a; induction n as [|n IH]; intros a; simpl; [reflexivity|].
  rewrite Nat.add_0_r. f_equal.
  rewrite <- (seq_shift n 0), map_map, (IH (S a)).
  apply map_ext. intros k. lia.
Qed.

Lemma firstn_seq_prefix (n a len : nat) :
  (n <= len)%nat -> firstn n (seq a len) = seq a n.
Proof.
  revert a len; induction n as [|n IH]; intros a len Hn; [reflexivity|].
  destruct len as [|len]; [lia|]. simpl. f_equal. apply IH. lia.
Qed.

Lemma deltas_pairs (closes : list Q) :
  Wilder.deltas closes = map (pair_at closes) (seq 0 (length closes - 1)).
Proof.
  induction closes as [|a closes IH]; [reflexivity|].
  destruct closes as [|b rest]; [reflexivity|].
  change (Wilder.deltas (a :: b :: rest))
    with ((a, b) :: Wilder.deltas (b :: rest)).
  rewrite IH. cbn [length]. rewrite !Nat.sub_succ, !Nat.sub_0_r.
  cbn [seq map]. f_equal.
  rewrite <- (seq_shift (length rest) 0), map_map. reflexivity.
Qed.

Lemma seed_changes (closes : list Q) (period : Z) :
  1 <= period ->
  period + 1 <= Z.of_nat (length closes) ->
  map (change_at closes) (py_range 1 (period + 1)) =
  map dchange (firstn (Z.to_nat period) (Wilder.deltas closes)).
Proof.
  intros Hp Hlen. rewrite deltas_pairs, firstn_map.
  rewrite firstn_seq_prefix by lia.
  unfold py_range. replace (period + 1 - 1) with period by lia.
  rewrite !map_map. apply map_ext. intros k.
  unfold change_at, dchange, pair_at. cbn [fst snd].
  replace (Z.to_nat (1 + Z.of_nat k)) with (S k) by lia.
  replace (Z.to_nat (1 + Z.of_nat k - 1)) with k by lia.
  reflexivity.
Qed.

Lemma rest_changes (closes : list Q) (period : Z) :
  1 <= period ->
  period + 1 <= Z.of_nat (length closes) ->
  map (change_at closes) (py_range (period + 1) (Z.of_nat (length closes))) =
  map dchange (skipn (Z.to_nat period) (Wilder.deltas closes)).
Proof.
  intros Hp Hlen. rewrite deltas_pairs, skipn_map, skipn_seq.
  rewrite seq_offset. unfold py_range.
  replace (Z.to_nat (Z.of_nat (length closes) - (period + 1)))
    with (length closes - 1 - Z.to_nat period)%nat by lia.
  rewrite !map_map. apply map_ext. intros k.
  unfold change_at, dchange, pair_at. cbn [fst snd].
  replace (Z.to_nat (period + 1 + Z.of_nat k))
    with (S (0 + Z.to_nat period + k)) by lia.
  replace (Z.to_nat (period + 1 + Z.of_nat k - 1))
    with (0 + Z.to_nat period + k)%nat by lia.
  reflexivity.
Qed.

(** *** The code against the Wilder algorithm *)

Lemma q_gain_spec (d : Q * Q) : (q_gain (dchange d) == Wilder.gain d)%Q.
Proof.
  unfold q_gain, Wilder.gain, dchange, py_max. simpl.
  change (inject_Z 0) with 0%Q.
  destruct (Qle_bool 0 (snd d - fst d)) eqn:Hc; simpl.
  - apply Qle_bool_iff in Hc. symmetry. apply Q.max_l. exact Hc.
  - assert (Hneg : ~ (0 <= snd d - fst d)%Q)
      by (intros Hle; apply Qle_bool_iff in Hle; congruence).
    symmetry. apply Q.max_r. lra.
Qed.

Lemma q_loss_spec (d : Q * Q) : (q_loss (dchange d) == Wilder.loss d)%Q.
Proof.
  unfold q_loss, Wilder.loss, dchange, py_min. simpl.
  change (inject_Z 0) with 0%Q.
  destruct (Qle_bool (snd d - fst d) 0) eqn:Hc; simpl.
  - apply Qle_bool_iff in Hc. rewrite (Qabs_neg _ Hc).
    rewrite Q.max_l by lra. ring.
  - assert (Hpos : ~ (snd d - fst d <= 0)%Q)
      by (intros Hle; apply Qle_bool_iff in Hle; congruence).
    rewrite Q.max_r by lra. reflexivity.
Qed.

Lemma py_sum_spec (f g : Q * Q -> Q) (l : list (Q * Q)) :
  (forall d, f d == g d)%Q ->
  (py_sum (map f l) == fold_right Qplus 0 (map g l))%Q.
Proof.
  intros Hfg. unfold py_sum. simpl. change (inject_Z 0) with 0%Q.
  assert (Hacc : forall a,
             (fold_left Qplus (map f l) a == a + fold_right Qplus 0 (map g l))%Q).
  { induction l as [|d l IH]; intros a; simpl; [ring|].
    rewrite IH, (Hfg d). ring. }
  rewrite Hacc. ring.
Qed.

Lemma q_step_spec (period : Z) (avg avg' : Q * Q) (d : Q * Q) :
  avg_eq avg avg' ->
  avg_eq (q_step period avg (dchange d)) (Wilder.update period avg' d).
Proof.
  intros [Hg Hl]. unfold avg_eq, q_step, Wilder.update. cbn [fst snd].
  rewrite Hg, Hl, q_gain_spec, q_loss_spec. split; reflexivity.
Qed.

Lemma q_averages_spec (closes : list Q) (period : Z) :
  1 <= period ->
  period + 1 <= Z.of_nat (length closes) ->
  avg_eq (q_averages closes period) (Wilder.averages closes period).
Proof.
  intros Hp Hlen. unfold q_averages, Wilder.averages, Wilder.seed.
  rewrite (seed_changes _ Hp Hlen), (rest_changes _ Hp Hlen).
  set (first := firstn (Z.to_nat period) (Wilder.deltas closes)).
  set (rest := skipn (Z.to_nat period) (Wilder.deltas closes)).
  assert (Hfold : forall l avg avg', avg_eq avg avg' ->
            avg_eq (fold_left (q_step period) (map dchange l) avg)
                   (fold_left (Wilder.update period) l avg')).
  { induction l as [|d l IH]; intros avg avg' Heq; simpl; [exact Heq|].
    apply IH. apply q_step_spec. exact Heq. }
  apply Hfold. unfold avg_eq, Wilder.mean. cbn [fst snd].
  rewrite !map_map.
  rewrite (py_sum_spec (fun d => q_gain (dchange d)) Wilder.gain first q_gain_spec).
  rewrite (py_sum_spec (fun d => q_loss (dchange d)) Wilder.loss first q_loss_spec).
  split; reflexivity.
Qed.

Lemma flt_Q_true (x y : Q) : (x < y)%Q -> flt x y = true.
Proof.
  intros Hlt. simpl. destruct (Qle_bool y x) eqn:Hle; [|reflexivity].
  apply Qle_bool_iff in Hle. lra.
Qed.

Lemma flt_Q_false (x y : Q) : (y <= x)%Q -> flt x y = false.
Proof.
  intros Hle. simpl. apply Qle_bool_iff in Hle. rewrite Hle. reflexivity.
Qed.



(** *** C3: no losses in the lookback *)

(** The test of line 115, for any float instance and any closes. *)
Lemma compute_rsi_numerically_zero_loss
      (F : Type) (ops : PyFloat F) (closes : list (json F)) (period : Z) (g l : F) :
  period + 1 <= Z.of_nat (length closes) ->
  smoothed_averages closes period = Ok (g, l) ->
  flt (fabs l) f1em12 = true ->
  compute_rsi closes period = Ok (Some (of_int 100)).
Proof.
  intros Hlen Havg Hflat. unfold compute_rsi.
  destruct (Z.ltb_spec (Z.of_nat (length closes)) (period + 1)) as [Hlt|_]; [lia|].
  rewrite Havg. cbn [rbind]. rewrite Hflat. reflexivity.
Qed.

Lemma deltas_split (closes : list Q) (n : nat) (P : Q * Q -> Prop) :
  Forall P (Wilder.deltas closes) ->
  Forall P (firstn n (Wilder.deltas closes)) /\
  Forall P (skipn n (Wilder.deltas closes)).
Proof.
  intros Hall. rewrite <- (firstn_skipn n (Wilder.deltas closes)) in Hall.
  apply Forall_app in Hall. exact Hall.
Qed.

Lemma non_decreasing_no_loss (closes : list Q) :
  non_decreasing closes = true ->
  Forall (fun d => Wilder.loss d == 0)%Q (Wilder.deltas closes).
Proof.
  intros Hnd. apply Forall_forall. intros d Hin.
  unfold non_decreasing in Hnd. rewrite forallb_forall in Hnd.
  specialize (Hnd d Hin). apply Qle_bool_iff in Hnd.
  unfold Wilder.loss. apply Q.max_r. lra.
Qed.

Lemma mean_of_zeros (l : list (Q * Q)) (n : Z) :
  Forall (fun d => Wilder.loss d == 0)%Q l ->
  (Wilder.mean (map Wilder.loss l) n == 0)%Q.
Proof.
  intros Hall. unfold Wilder.mean.
  assert (Hsum : (fold_right Qplus 0 (map Wilder.loss l) == 0)%Q).
  { induction Hall as [|d l Hd _ IH]; simpl; [reflexivity|].
    rewrite Hd, IH. reflexivity. }
  rewrite Hsum. unfold Qdiv. ring.
Qed.

Lemma wilder_no_loss (closes : list Q) (period : Z) :
  Forall (fun d => Wilder.loss d == 0)%Q (Wilder.deltas closes) ->
  (snd (Wilder.averages closes period) == 0)%Q.
Proof.
  intros Hall.
  destruct (@deltas_split closes (Z.to_nat period) _ Hall) as [Hfirst Hrest].
  unfold Wilder.averages.
  assert (Hfold : forall l avg,
             Forall (fun d => Wilder.loss d == 0)%Q l ->
             (snd avg == 0)%Q ->
             (snd (fold_left (Wilder.update period) l avg) == 0)%Q).
  { induction l as [|d l IH]; intros avg Hl Havg; simpl; [exact Havg|].
    inversion Hl as [|? ? Hd Hl']; subst.
    apply IH; [exact Hl'|]. unfold Wilder.update. cbn [snd].
    rewrite Havg, Hd. unfold Qdiv. ring. }
  apply Hfold; [exact Hrest|].
  unfold Wilder.seed. cbn [snd]. apply mean_of_zeros. exact Hfirst.
Qed.



(** The specification's scenario on binary64: fourteen closes rising by
    2, period 13, gains summing to 26 and no loss. *)
Example compute_rsi_fourteen_rising :
  compute_rsi (fcloses [0; 2; 4; 6; 8; 10; 12; 14; 16; 18; 20; 22; 24; 26]%float)
              13 = Ok (Some 100%float).
Proof. vm_compute. reflexivity. Qed.

(** *** C4: the range of the reading *)



(** On binary64 the sum of the four gains of [overflowing_closes]
    overflows, as does the sum of its losses, and the quotient of the
    two infinities is not a number. *)
Lemma compute_rsi_overflow_nan :
  compute_rsi (fcloses overflowing_closes) 4 = Ok (Some PrimFloat.nan).
Proof. vm_compute. reflexivity. Qed.


(** *** C9: paging through the ranked list *)

Lemma world_eta {F : Type} (w : world F) :
  w = {| sent := sent w ++ []; slept := slept w |}.
Proof. destruct w as [s z]. simpl. rewrite app_nil_r. reflexivity. Qed.

(** The loop ends within [n - len(results)] turns and pages as the
    specification says. *)
Lemma top_coins_loop_paging {F : Type}
      (net : nat -> request F -> result (response F)) (n per_page : Z) :
  (1 <= n -> 1 <= per_page) ->
  forall (fuel : nat) (results : list (json F)) (page : Z) (w : world F),
    n - Z.of_nat (length results) <= Z.of_nat fuel ->
    exists out rqs,
      top_coins_loop net fuel n per_page results page w =
      Some (out, {| sent := sent w ++ rqs; slept := slept w |}) /\
      paging net n per_page (length (sent w)) page results rqs out.
Proof.
  intros Hpp. induction fuel as [|fuel IH]; intros results page w Hfuel.
  - exists (Ok (py_slice_to results n)), []. simpl.
    destruct (Z.ltb_spec (Z.of_nat (length results)) n) as [Hlt|Hge]; [lia|].
    split; [f_equal; f_equal; apply world_eta | now constructor].
  - cbn [top_coins_loop].
    destruct (Z.ltb_spec (Z.of_nat (length results)) n) as [Hlt|Hge].
    2:{ exists (Ok (py_slice_to results n)), [].
        split; [f_equal; f_equal; apply world_eta | now constructor]. }
    rewrite get_json_attempt.
    destruct (attempt net (length (sent w)) (GetMarkets per_page page))
      as [batch|e] eqn:Hpage.
    2:{ exists (Err e), [GetMarkets per_page page].
        split; [reflexivity | now constructor]. }
    destruct batch as [|coin batch].
    { exists (Ok (py_slice_to results n)), [GetMarkets per_page page].
      split; [reflexivity|].
      rewrite <- (app_nil_r results) at 2.
      apply paging_short; [exact Hlt | exact Hpage | simpl; lia]. }
    destruct (Z.ltb_spec (Z.of_nat (length (coin :: batch))) per_page)
      as [Hshort|Hfull].
    { exists (Ok (py_slice_to (results ++ coin :: batch) n)),
             [GetMarkets per_page page].
      split; [reflexivity | now apply paging_short]. }
    destruct (IH (results ++ coin :: batch) (page + 1)
                 {| sent := sent w ++ [GetMarkets per_page page];
                    slept := slept w |})
      as [out [rqs [Hrun Hpaging]]].
    { rewrite length_app. cbn [length]. lia. }
    exists out, (GetMarkets per_page page :: rqs). split.
    + rewrite Hrun. cbn [sent slept]. rewrite <- app_assoc. reflexivity.
    + apply paging_full with (batch := coin :: batch);
        [exact Hlt | exact Hpage | exact Hfull |].
      cbn [sent] in Hpaging. rewrite length_app in Hpaging.
      cbn [length] in Hpaging. rewrite Nat.add_1_r in Hpaging. exact Hpaging.
Qed.

(** Every request of a paging asks for the same page size, and the
    pages are consecutive. *)
Lemma paging_requests {F : Type}
      (net : nat -> request F -> result (response F)) (n per_page : Z)
      k page results rqs out :
  paging net n per_page k page results rqs out ->
  rqs = map (fun j => GetMarkets per_page (page + Z.of_nat j))
            (seq 0 (length rqs)).
Proof.
  induction 1 as [ k page results Hge
                 | k page results e Hlt Hpage
                 | k page results batch Hlt Hpage Hshort
                 | k page results batch rqs out Hlt Hpage Hfull Hrest IH ];
    cbn [length seq map]; rewrite ?Z.add_0_r; try reflexivity.
  f_equal. rewrite IH at 1. rewrite <- (seq_shift (length rqs) 0), map_map.
  apply map_ext. intros j. f_equal. lia.
Qed.

(** A page request that fails is the last one, and its failure is the
    outcome of the paging. *)
Lemma paging_failure {F : Type}
      (net : nat -> request F -> result (response F)) (n per_page : Z)
      k page results rqs out :
  paging net n per_page k page results rqs out ->
  forall i rq e,
    nth_error rqs i = Some rq -> attempt net (k + i) rq = Err e -> out = Err e.
Proof.
  induction 1 as [ k page results Hge
                 | k page results e0 Hlt Hpage
                 | k page results batch Hlt Hpage Hshort
                 | k page results batch rqs out Hlt Hpage Hfull Hrest IH ];
    intros i rq e Hnth Hfail.
  - destruct i; discriminate.
  - destruct i as [|i]; [|destruct i; discriminate].
    injection Hnth as <-. rewrite Nat.add_0_r in Hfail. congruence.
  - destruct i as [|i]; [|destruct i; discriminate].
    injection Hnth as <-. rewrite Nat.add_0_r in Hfail. congruence.
  - destruct i as [|i].
    + injection Hnth as <-. rewrite Nat.add_0_r in Hfail. congruence.
    + apply (IH i rq e Hnth). rewrite <- Hfail. f_equal. lia.
Qed.

Lemma py_slice_to_length {A : Type} (l : list A) (n : Z) :
  0 <= n -> Z.of_nat (length (py_slice_to l n)) <= n.
Proof.
  intros Hn. unfold py_slice_to.
  destruct (Z.leb_spec 0 n) as [_|Hneg]; [|lia].
  rewrite length_firstn. lia.
Qed.

(** A paging that collects rows does so for a positive limit, and what
    it returns is cut to the limit. *)
Lemma paging_at_most {F : Type}
      (net : nat -> request F -> result (response F)) (n per_page : Z)
      k page results rqs out :
  paging net n per_page k page results rqs out ->
  (n < 0 -> results = []) ->
  forall coins, out = Ok coins -> Z.of_nat (length coins) <= Z.max 0 n.
Proof.
  induction 1 as [ k page results Hge
                 | k page results e0 Hlt Hpage
                 | k page results batch Hlt Hpage Hshort
                 | k page results batch rqs out Hlt Hpage Hfull Hrest IH ];
    intros Hneg coins Hout.
  - injection Hout as <-. destruct (Z.lt_ge_cases n 0) as [Hn|Hn].
    + rewrite (Hneg Hn). unfold py_slice_to. simpl.
      destruct (0 <=? n); rewrite ?firstn_nil; simpl; lia.
    + pose proof (py_slice_to_length results Hn). lia.
  - discriminate.
  - injection Hout as <-.
    assert (Hn : 0 <= n) by lia.
    pose proof (py_slice_to_length (results ++ batch) Hn). lia.
  - apply IH; [|exact Hout]. intros Hn. lia.
Qed.

(** C9. For every limit [n], [fetch_top_coins] returns, having slept
    never and sent the requests [rqs], and:
    - it pages as the specification says, with page size [min(250, n)]:
      it stops when [n] rows are collected or after a page of fewer rows
      than requested, and a failing page request ends it with that
      failure as the only outcome;
    - the requests ask for the pages 1, 2, ... in order, all with that
      page size;
    - a list it returns has at most [n] rows (none when [n <= 0]);
    - whenever one of its page requests fails, in particular with a 4xx
      or 5xx status, the call fails with that error and returns no
      rows. *)
Theorem fetch_top_coins_paging :
  forall (F : Type) (net : nat -> request F -> result (response F))
         (n : Z) (w : world F),
    let per_page := Z.min 250 n in
    let k := length (sent w) in
    exists out rqs,
      fetch_top_coins net n w =
      Some (out, {| sent := sent w ++ rqs; slept := slept w |}) /\
      paging net n per_page k 1 [] rqs out /\
      rqs = map (fun j => GetMarkets per_page (1 + Z.of_nat j))
                (seq 0 (length rqs)) /\
      (forall coins, out = Ok coins -> Z.of_nat (length coins) <= Z.max 0 n) /\
      (forall i rq e,
          nth_error rqs i = Some rq -> attempt net (k + i) rq = Err e ->
          out = Err e) /\
      (forall i rq r,
          nth_error rqs i = Some rq -> net (k + i)%nat rq = Ok r ->
          400 <= status_code r < 600 ->
          out = Err (HTTPError (Some (status_code r)))).
Proof.
  intros F net n w per_page k. unfold fetch_top_coins.
  destruct (@top_coins_loop_paging F net n per_page) with
    (fuel := Z.to_nat n) (results := @nil (json F)) (page := 1) (w := w)
    as [out [rqs [Hrun Hpaging]]].
  - subst per_page. lia.
  - simpl. lia.
  - exists out, rqs. fold per_page. split; [exact Hrun|].
    split; [exact Hpaging|]. split; [exact (paging_requests Hpaging)|].
    split; [apply (paging_at_most Hpaging); reflexivity|].
    split; [exact (paging_failure Hpaging)|].
    intros i rq r Hnth Hr Hstatus.
    apply (paging_failure Hpaging i Hnth).
    now apply attempt_http_error.
Qed.

(** On the sample provider a limit of 2 is served by one request of
    page size 2, and a limit of 10 ends on the first, short page. *)
Example fetch_top_coins_sample :
  fetch_top_coins sample_net 2 w0 =
  Some (Ok (firstn 2 sample_coins),
        {| sent := [GetMarkets 2 1]; slept := [] |}) /\
  fetch_top_coins sample_net 10 w0 =
  Some (Ok sample_coins, {| sent := [GetMarkets 10 1]; slept := [] |}).
Proof. split; reflexivity. Qed.

(** *** The table: [sort_values] *)

Section SortValues.
Context {F : Type} `{PyFloat F}.

Lemma insert_row_perm (r : row F) (l : list (row F)) :
  Permutation (insert_row r l) (r :: l).
Proof.
  induction l as [|r' l IH]; simpl; [reflexivity|].
  destruct (rsi_leb r r'); [reflexivity|].
  rewrite IH. apply perm_swap.
Qed.

Lemma argsort_perm (l : list (row F)) : Permutation (argsort l) l.
Proof.
  induction l as [|r l IH]; simpl; [reflexivity|].
  rewrite insert_row_perm. now constructor.
Qed.

Lemma filter_split_perm {A : Type} (f : A -> bool) (l : list A) :
  Permutation (filter f l ++ filter (fun x => negb (f x)) l) l.
Proof.
  induction l as [|x l IH]; simpl; [reflexivity|].
  destruct (f x); simpl.
  - now constructor.
  - rewrite <- Permutation_middle. now constructor.
Qed.

Lemma sort_values_perm (rows df : list (row F)) :
  sort_values rows = Ok df -> Permutation rows df.
Proof.
  destruct rows as [|r rows]; [discriminate|].
  unfold sort_values. intros Hdf. injection Hdf as <-.
  rewrite argsort_perm. symmetry.
  exact (filter_split_perm has_rsi (r :: rows)).
Qed.

Lemma sort_values_nonempty (rows : list (row F)) :
  rows <> [] -> exists df, sort_values rows = Ok df.
Proof.
  destruct rows as [|r rows]; [congruence|].
  intros _. eexists. reflexivity.
Qed.

End SortValues.

(** *** C6: one asset's failure stays its own *)

Section Isolation.
Context {F : Type} `{PyFloat F}.
Variable net : nat -> request F -> result (response F).
Variable str_upper : string -> string.
Variable round2 : F -> F.
Variables (rsi_period : Z) (low_th high_th : F).

(** The [try] block never lets an exception out. *)
Lemma coin_rsi_never_raises (coin_id : json F) (w : world F) :
  coin_rsi net rsi_period coin_id w =
  (Ok (reading_of (fst (rsi_of_candles net rsi_period coin_id w))),
   snd (rsi_of_candles net rsi_period coin_id w)).
Proof.
  unfold coin_rsi, mtry.
  destruct (rsi_of_candles net rsi_period coin_id w) as [[rsi|e] w'];
    reflexivity.
Qed.

(** A failing fetch makes the whole block fail. *)
Lemma rsi_of_candles_fetch_error (coin_id : json F) (w : world F) (e : exn) :
  fst (fetch_ohlc net coin_id 1 w) = Err e ->
  fst (rsi_of_candles net rsi_period coin_id w) = Err e.
Proof.
  unfold rsi_of_candles, mbind.
  destruct (fetch_ohlc net coin_id 1 w) as [[ohlc|e'] w']; cbn [fst];
    intros Hfail; [discriminate Hfail | injection Hfail as ->; reflexivity].
Qed.

Lemma py_get_object (fields : list (string * json F)) (key : string)
      (default : json F) :
  exists v, py_get (JObj fields) key default = Ok v.
Proof.
  unfold py_get. destruct (find _ fields) as [kv|]; eexists; reflexivity.
Qed.

Lemma py_get_symbol (coin : json F) :
  asset_ok coin = true ->
  exists s, py_get coin "symbol" (JStr "") = Ok (JStr s).
Proof.
  destruct coin as [ | b | x | s | items | fields ]; try discriminate.
  unfold asset_ok, py_get.
  destruct (find _ fields) as [[key v]|]; [|intros _; eexists; reflexivity].
  destruct v; try discriminate. intros _. eexists. reflexivity.
Qed.

(** One turn of the main loop on a well-formed asset appends one row
    and never raises. *)
Lemma process_coin_row (coin : json F) :
  asset_ok coin = true ->
  exists id name symbol price,
    py_get coin "id" JNull = Ok id /\
    py_get coin "name" id = Ok name /\
    forall rows alerts w,
    exists alerts',
      process_coin net str_upper round2 rsi_period low_th high_th
                   (rows, alerts) coin w =
      (Ok (rows ++ [{| Name := name; Symbol := symbol; Price := price;
                       RSI := option_map round2
                                (reading_of
                                   (fst (rsi_of_candles net rsi_period id w))) |}],
           alerts'),
       snd (rsi_of_candles net rsi_period id w)).
Proof.
  intros Hok. destruct (py_get_symbol coin Hok) as [s Hsym].
  destruct coin as [ | b | x | s0 | items | fields ]; try discriminate.
  destruct (py_get_object fields "id" JNull) as [id Hid].
  destruct (py_get_object fields "name" id) as [name Hname].
  destruct (py_get_object fields "current_price" JNull) as [price Hprice].
  exists id, name, (str_upper s), price.
  split; [exact Hid|]. split; [exact Hname|].
  intros rows alerts w. unfold process_coin, mbind, lift.
  rewrite Hid, Hname, Hsym. cbn [py_upper]. rewrite Hprice.
  rewrite coin_rsi_never_raises. cbn [mret].
  eexists. reflexivity.
Qed.

(** The main loop over well-formed assets: one row per asset, in order,
    each with the reading of its own [try] block. *)
Lemma main_loop_rows (coins : list (json F)) :
  forallb asset_ok coins = true ->
  forall rows0 alerts0 w,
  exists rows alerts w',
    mfor_each (process_coin net str_upper round2 rsi_period low_th high_th)
              (rows0, alerts0) coins w = (Ok (rows0 ++ rows, alerts), w') /\
    length rows = length coins /\
    forall i coin,
      nth_error coins i = Some coin ->
      exists r id,
        nth_error rows i = Some r /\
        py_get coin "id" JNull = Ok id /\
        py_get coin "name" id = Ok (Name r) /\
        RSI r = option_map round2
                  (reading_of
                     (fst (rsi_of_candles net rsi_period id
                             (snd (mfor_each
                                     (process_coin net str_upper round2
                                                   rsi_period low_th high_th)
                                     (rows0, alerts0) (firstn i coins) w))))).
Proof.
  induction coins as [|coin coins IH]; intros Hok rows0 alerts0 w.
  - exists [], alerts0, w. rewrite app_nil_r.
    split; [reflexivity|]. split; [reflexivity|].
    intros i c Hnth. destruct i; discriminate.
  - cbn [forallb] in Hok. apply andb_true_iff in Hok. destruct Hok as [Hcoin Hrest].
    destruct (process_coin_row coin Hcoin)
      as [id [name [symbol [price [Hid [Hname Hturn]]]]]].
    destruct (Hturn rows0 alerts0 w) as [alerts1 Hstep].
    set (r0 := {| Name := name; Symbol := symbol; Price := price;
                  RSI := option_map round2
                           (reading_of
                              (fst (rsi_of_candles net rsi_period id w))) |})
      in Hstep.
    set (w1 := snd (rsi_of_candles net rsi_period id w)) in Hstep.
    destruct (IH Hrest (rows0 ++ [r0]) alerts1 w1)
      as [rows [alerts [w' [Hrun [Hlen Hrows]]]]].
    exists (r0 :: rows), alerts, w'.
    split.
    { cbn [mfor_each]. unfold mbind at 1. rewrite Hstep.
      rewrite Hrun, <- app_assoc. reflexivity. }
    split; [simpl; lia|].
    intros i c Hnth. destruct i as [|i].
    + injection Hnth as <-. exists r0, id.
      split; [reflexivity|]. split; [exact Hid|]. split; [exact Hname|].
      reflexivity.
    + destruct (Hrows i c Hnth) as [r [id' [Hr [Hid' [Hname' Hrsi]]]]].
      exists r, id'. split; [exact Hr|]. split; [exact Hid'|].
      split; [exact Hname'|].
      rewrite Hrsi. cbn [firstn mfor_each]. unfold mbind.
      rewrite Hstep. reflexivity.
Qed.

(** C6. A run of the cycle over a non-empty list of well-formed assets
    never raises, whatever the provider answers: the table has one row
    per asset, and the row of every asset carries the reading of that
    asset's own fetch and computation, undefined when either of them
    failed.  So with exactly one failing asset among [N], the table
    still has [N] rows, the failing asset's row undefined. *)
Theorem report_isolates_failures :
  forall (coins : list (json F)) (w : world F),
    coins <> [] ->
    forallb asset_ok coins = true ->
    let cycle := process_coin net str_upper round2 rsi_period low_th high_th in
    exists rows df alerts w',
      main_loop net str_upper round2 rsi_period low_th high_th coins w
      = (Ok (rows, alerts), w') /\
      report net str_upper round2 rsi_period low_th high_th coins w
      = (Ok (df, alerts), w') /\
      Permutation rows df /\
      length df = length coins /\
      forall i coin,
        nth_error coins i = Some coin ->
        exists r id,
          nth_error rows i = Some r /\ In r df /\
          py_get coin "id" JNull = Ok id /\
          py_get coin "name" id = Ok (Name r) /\
          let w_i := snd (main_loop net str_upper round2 rsi_period
                                    low_th high_th (firstn i coins) w) in
          RSI r = option_map round2
                    (reading_of (fst (rsi_of_candles net rsi_period id w_i))) /\
          (forall e, fst (fetch_ohlc net id 1 w_i) = Err e -> RSI r = None) /\
          (forall e, fst (rsi_of_candles net rsi_period id w_i) = Err e ->
                     RSI r = None).
Proof.
  intros coins w Hne Hok cycle.
  destruct (main_loop_rows coins Hok [] [] w)
    as [rows [alerts [w' [Hrun [Hlen Hrows]]]]].
  cbn [app] in Hrun.
  assert (Hrows_ne : rows <> []).
  { intros ->. destruct coins; [congruence | discriminate]. }
  destruct (sort_values_nonempty Hrows_ne) as [df Hdf].
  pose proof (sort_values_perm _ Hdf) as Hperm.
  exists rows, df, alerts, w'.
  split; [exact Hrun|].
  split.
  { unfold report, mbind. unfold main_loop. rewrite Hrun.
    unfold lift. rewrite Hdf. reflexivity. }
  split; [exact Hperm|].
  split; [rewrite <- (Permutation_length Hperm); exact Hlen|].
  intros i coin Hnth.
  destruct (Hrows i coin Hnth) as [r [id [Hr [Hid [Hname Hrsi]]]]].
  exists r, id. split; [exact Hr|].
  split; [apply (Permutation_in _ Hperm); eapply nth_error_In; exact Hr|].
  split; [exact Hid|]. split; [exact Hname|].
  cbv zeta. unfold main_loop. split; [exact Hrsi|].
  split.
  - intros e Hfail. rewrite Hrsi.
    rewrite (rsi_of_candles_fetch_error _ _ Hfail). reflexivity.
  - intros e Hfail. rewrite Hrsi, Hfail. reflexivity.
Qed.

End Isolation.

Lemma report_isolates_failures_witness :
  sample_coins <> [] /\
  forallb asset_ok sample_coins = true /\
  exists df alerts w',
    report sample_net ascii_upper Q_round2 2 25%Q 75%Q sample_coins w0
    = (Ok (df, alerts), w') /\
    length df = length sample_coins.
Proof.
  assert (Hne : sample_coins <> []) by discriminate.
  assert (Hok : forallb asset_ok sample_coins = true) by reflexivity.
  split; [exact Hne|]. split; [exact Hok|].
  destruct (report_isolates_failures sample_net ascii_upper Q_round2 2
                                     25%Q 75%Q w0 Hne Hok)
    as [rows [df [alerts [w' [_ [Hreport [_ [Hlen _]]]]]]]].
  exists df, alerts, w'. split; [exact Hreport | exact Hlen].
Defined.

(** The sample run: the provider fails for ["eth"] only, and the table
    has the three rows, the undefined one last. *)
Example sample_report :
  fst (report sample_net ascii_upper Q_round2 2 25%Q 75%Q sample_coins w0) =
  Ok ([{| Name := JStr "Solana"; Symbol := "SOL"; Price := JNum 150%Q;
          RSI := Some (Q_round2 0) |};
       {| Name := JStr "Bitcoin"; Symbol := "BTC"; Price := JNum 60000%Q;
          RSI := Some (Q_round2 50) |};
       {| Name := JStr "Ethereum"; Symbol := "ETH"; Price := JNum 3000%Q;
          RSI := None |}],
      [(JStr "Solana", "SOL"%string, (0 # 8)%Q, JNum 150%Q)]).
Proof. vm_compute. reflexivity. Qed.

(** *** C8: the order of the table *)

Lemma reading_le_trans (a b c : option Q) :
  reading_le a b -> reading_le b c -> reading_le a c.
Proof.
  destruct a as [x|], b as [y|], c as [z|]; simpl; try tauto.
  apply Qle_trans.
Qed.

Lemma rsi_leb_le (r1 r2 : row Q) : rsi_leb r1 r2 = true -> row_le r1 r2.
Proof.
  unfold rsi_leb, row_le, reading_le.
  destruct (RSI r1) as [x|], (RSI r2) as [y|]; simpl; try tauto; try discriminate.
  apply Qle_bool_iff.
Qed.

Lemma rsi_leb_total (r1 r2 : row Q) : rsi_leb r1 r2 = false -> row_le r2 r1.
Proof.
  unfold rsi_leb, row_le, reading_le.
  destruct (RSI r1) as [x|], (RSI r2) as [y|]; simpl; try tauto; try discriminate.
  intros Hle. destruct (Qlt_le_dec y x) as [Hlt|Hge].
  - apply Qlt_le_weak. exact Hlt.
  - apply Qle_bool_iff in Hge. congruence.
Qed.

Lemma insert_row_sorted (r : row Q) (l : list (row Q)) :
  StronglySorted row_le l -> StronglySorted row_le (insert_row r l).
Proof.
  induction 1 as [|r' l Hsorted IH Hall]; simpl.
  - constructor; constructor.
  - destruct (rsi_leb r r') eqn:Hcmp.
    + apply rsi_leb_le in Hcmp. constructor.
      * constructor; assumption.
      * constructor; [exact Hcmp|].
        eapply Forall_impl; [|exact Hall]. intros x Hx.
        exact (reading_le_trans _ _ _ Hcmp Hx).
    + apply rsi_leb_total in Hcmp. constructor; [exact IH|].
      apply (Permutation_Forall (Permutation_sym (insert_row_perm r l))).
      constructor; assumption.
Qed.

Lemma argsort_sorted (l : list (row Q)) : StronglySorted row_le (argsort l).
Proof.
  induction l as [|r l IH]; simpl; [constructor|].
  apply insert_row_sorted. exact IH.
Qed.

Lemma undefined_rows_sorted (l : list (row Q)) :
  Forall (fun r => RSI r = None) l -> StronglySorted row_le l.
Proof.
  induction 1 as [|r l Hr Hall IH]; constructor; [exact IH|].
  eapply Forall_impl; [|exact Hall]. intros x Hx.
  unfold row_le. rewrite Hx. destruct (RSI r); exact I.
Qed.

Lemma StronglySorted_app {A : Type} (R : A -> A -> Prop) (l1 l2 : list A) :
  StronglySorted R l1 -> StronglySorted R l2 ->
  (forall x y, In x l1 -> In y l2 -> R x y) ->
  StronglySorted R (l1 ++ l2).
Proof.
  induction 1 as [|x l1 Hsorted IH Hall]; intros Hl2 Hcross; simpl.
  - exact Hl2.
  - constructor.
    + apply IH; [exact Hl2|]. intros a b Ha Hb. apply Hcross; [now right | exact Hb].
    + apply Forall_app. split; [exact Hall|].
      apply Forall_forall. intros y Hy. apply Hcross; [now left | exact Hy].
Qed.

Lemma sort_values_sorted (rows df : list (row Q)) :
  sort_values rows = Ok df -> StronglySorted row_le df.
Proof.
  destruct rows as [|r rows]; [discriminate|].
  unfold sort_values. intros Hdf. injection Hdf as <-.
  set (all := r :: rows).
  assert (Hnone : Forall (fun x : row Q => RSI x = None)
                         (filter (fun x => negb (has_rsi x)) all)).
  { apply Forall_forall. intros x Hx. apply filter_In in Hx.
    destruct Hx as [_ Hx]. unfold has_rsi in Hx.
    destruct (RSI x); [discriminate | reflexivity]. }
  change (StronglySorted row_le
            (argsort (filter has_rsi all)
             ++ filter (fun x => negb (has_rsi x)) all)).
  apply StronglySorted_app.
  - apply argsort_sorted.
  - apply undefined_rows_sorted. exact Hnone.
  - intros x y _ Hy. rewrite Forall_forall in Hnone.
    unfold row_le. rewrite (Hnone y Hy). destruct (RSI x); exact I.
Qed.

(** C8. The table a cycle hands over is in ascending order of its RSI
    column, the rows without a reading last: every row comes before
    every row of greater or undefined reading, however many readings
    are defined. *)
Theorem report_sorted_by_rsi :
  forall (net : nat -> request Q -> result (response Q))
         (str_upper : string -> string) (round2 : Q -> Q)
         (rsi_period : Z) (low_th high_th : Q)
         (coins : list (json Q)) (w w' : world Q)
         (df : list (row Q)) (alerts : list (alert Q)),
    report net str_upper round2 rsi_period low_th high_th coins w
    = (Ok (df, alerts), w') ->
    StronglySorted row_le df.
Proof.
  intros net str_upper round2 rsi_period low_th high_th coins w w' df alerts.
  unfold report, mbind, lift.
  destruct (main_loop net str_upper round2 rsi_period low_th high_th coins w)
    as [[[rows alerts0]|e] w1]; [|discriminate].
  destruct (sort_values rows) as [df0|e] eqn:Hdf; [|discriminate].
  cbn [mret]. intros Hreport. injection Hreport as <- _ _.
  exact (sort_values_sorted _ Hdf).
Qed.

Lemma report_sorted_by_rsi_witness :
  exists df alerts w',
    report sample_net ascii_upper Q_round2 2 25%Q 75%Q sample_coins w0
    = (Ok (df, alerts), w') /\
    StronglySorted row_le df.
Proof.
  destruct (report sample_net ascii_upper Q_round2 2 25%Q 75%Q sample_coins w0)
    as [[[df alerts]|e] w'] eqn:Hreport.
  - exists df, alerts, w'. split; [reflexivity|].
    exact (report_sorted_by_rsi _ _ _ _ _ _ _ _ Hreport).
  - vm_compute in Hreport. discriminate Hreport.
Defined.

(** ** Further properties *)

(** *** [compute_rsi]: errors *)

(** X1. With a period of 0 and at least one close, [compute_rsi] raises
    [ZeroDivisionError]: the history test passes, the first loop does
    not run and the mean of no gain is [0 / 0]. *)
Theorem compute_rsi_period_zero :
  forall (F : Type) (ops : PyFloat F) (closes : list (json F)),
    feq (of_int 0) (of_int 0) = true ->
    closes <> [] ->
    compute_rsi closes 0 = Err ZeroDivisionError.
Proof.
  intros F ops closes Hzero Hne. unfold compute_rsi.
  destruct (Z.ltb_spec (Z.of_nat (length closes)) (0 + 1)) as [Hlt|_].
  - destruct closes; [congruence | simpl in Hlt; lia].
  - unfold smoothed_averages. cbn [py_range Z.to_nat Z.sub Z.add Z.opp seq map
                                   for_each rbind Z.pos_sub].
    unfold py_truediv at 1. rewrite Hzero. reflexivity.
Qed.

Lemma compute_rsi_period_zero_witness :
  compute_rsi (fcloses seven_closes) 0 = Err ZeroDivisionError.
Proof.
  apply compute_rsi_period_zero; [reflexivity | discriminate].
Defined.

Lemma py_range_in (a b i : Z) : In i (py_range a b) <-> a <= i < b.
Proof.
  unfold py_range. rewrite in_map_iff. split.
  - intros [k [<- Hk]]. apply in_seq in Hk. lia.
  - intros Hi. exists (Z.to_nat (i - a)). split; [lia|].
    apply in_seq. lia.
Qed.

Lemma py_index_valid {A : Type} (l : list A) (i : Z) (d : A) :
  0 <= i < Z.of_nat (length l) ->
  py_index l i = Ok (nth (Z.to_nat i) l d).
Proof.
  intros Hi. rewrite <- (Z2Nat.id i) at 1 by lia.
  apply py_index_nth_error. apply nth_error_nth'. lia.
Qed.

Lemma as_number_outcome {F : Type} `{PyFloat F} (v : json F) :
  (is_number v = true /\ exists x, as_number v = Ok x) \/
  (is_number v = false /\ as_number v = Err TypeError).
Proof.
  destruct v; simpl; try (right; split; reflexivity);
    left; split; try reflexivity; eexists; reflexivity.
Qed.

Lemma py_sub_outcome {F : Type} `{PyFloat F} (a b : json F) :
  (is_number a && is_number b = true /\ exists x, py_sub a b = Ok x) \/
  (is_number a && is_number b = false /\ py_sub a b = Err TypeError).
Proof.
  unfold py_sub.
  destruct (as_number_outcome a) as [[Ha [x Hx]]|[Ha Hx]]; rewrite Ha, Hx;
    cbn [rbind andb]; [|right; split; reflexivity].
  destruct (as_number_outcome b) as [[Hb [y Hy]]|[Hb Hy]]; rewrite Hb, Hy;
    cbn [rbind]; [left | right]; split; try reflexivity.
  eexists. reflexivity.
Qed.

(** A loop whose turns either succeed or raise [TypeError] does the
    same, and raises as soon as one turn must. *)
Lemma for_each_type_error {S I : Type} (body : S -> I -> result S) (idxs : list I) :
  (forall s i, In i idxs -> body s i = Err TypeError \/ exists s', body s i = Ok s') ->
  forall s,
    (for_each body s idxs = Err TypeError \/ exists s', for_each body s idxs = Ok s') /\
    ((exists i, In i idxs /\ forall s0, body s0 i = Err TypeError) ->
     for_each body s idxs = Err TypeError).
Proof.
  induction idxs as [|i idxs IH]; intros Hbody s.
  - split; [right; eexists; reflexivity|]. intros [i [[] _]].
  - assert (Hrest : forall s0 j, In j idxs ->
                                 body s0 j = Err TypeError \/
                                 exists s', body s0 j = Ok s')
      by (intros s0 j Hj; apply Hbody; now right).
    cbn [for_each].
    destruct (Hbody s i (or_introl eq_refl)) as [Herr|[s' Hok]].
    + rewrite Herr. cbn [rbind]. split; [now left | reflexivity].
    + rewrite Hok. cbn [rbind]. destruct (IH Hrest s') as [Hout Hfail].
      split; [exact Hout|].
      intros [j [[<-|Hj] Hbad]].
      * rewrite Hbad in Hok. discriminate.
      * apply Hfail. exists j. split; assumption.
Qed.

Section TypeErrors.
Variable closes : list (json Q).
Variable period : Z.
Hypothesis Hperiod : 1 <= period.

Lemma seed_step_outcome (acc : list Q * list Q) (i : Z) :
  1 <= i < Z.of_nat (length closes) ->
  (seed_step closes acc i = Err TypeError \/
   exists acc', seed_step closes acc i = Ok acc') /\
  (non_numeric_change closes i -> seed_step closes acc i = Err TypeError).
Proof.
  intros Hi. destruct acc as [gains losses]. unfold seed_step, non_numeric_change.
  rewrite (py_index_valid closes JNull) by lia.
  rewrite (py_index_valid closes (i := i - 1) JNull) by lia.
  cbn [rbind].
  destruct (py_sub_outcome (nth (Z.to_nat i) closes JNull)
                           (nth (Z.to_nat (i - 1)) closes JNull))
    as [[Hnum [x Hx]]|[Hnum Hx]]; rewrite Hx; cbn [rbind].
  - split; [right; eexists; reflexivity | congruence].
  - split; [now left | reflexivity].
Qed.

Lemma smooth_step_outcome (acc : Q * Q) (i : Z) :
  1 <= i < Z.of_nat (length closes) ->
  (smooth_step closes period acc i = Err TypeError \/
   exists acc', smooth_step closes period acc i = Ok acc') /\
  (non_numeric_change closes i -> smooth_step closes period acc i = Err TypeError).
Proof.
  intros Hi. destruct acc as [avg_gain avg_loss]. unfold smooth_step, non_numeric_change.
  rewrite (py_index_valid closes JNull) by lia.
  rewrite (py_index_valid closes (i := i - 1) JNull) by lia.
  cbn [rbind].
  destruct (py_sub_outcome (nth (Z.to_nat i) closes JNull)
                           (nth (Z.to_nat (i - 1)) closes JNull))
    as [[Hnum [x Hx]]|[Hnum Hx]]; rewrite Hx; cbn [rbind].
  - rewrite !py_truediv_Q by (apply inject_Z_nonzero; lia). cbn [rbind].
    split; [right; eexists; reflexivity | congruence].
  - split; [now left | reflexivity].
Qed.

Lemma smoothed_averages_type_error :
  period + 1 <= Z.of_nat (length closes) ->
  forallb is_number closes = false ->
  smoothed_averages closes period = Err TypeError.
Proof.
  intros Hlen Hbad.
  assert (Hj : exists j, (j < length closes)%nat /\
                         is_number (nth j closes JNull) = false).
  { clear Hlen. induction closes as [|v l IH]; [discriminate|].
    cbn [forallb] in Hbad. destruct (is_number v) eqn:Hv.
    - destruct (IH Hbad) as [j [Hj Hnum]]. exists (S j). simpl. split; [lia|exact Hnum].
    - exists 0%nat. simpl. split; [lia | exact Hv]. }
  destruct Hj as [j [Hjlt Hjbad]].
  set (i := Z.max 1 (Z.of_nat j)).
  assert (Hi : 1 <= i < Z.of_nat (length closes)) by lia.
  assert (Hibad : non_numeric_change closes i).
  { unfold non_numeric_change. destruct (Z.max_spec 1 (Z.of_nat j)) as [[Hlt Hmax]|[Hge Hmax]].
    - fold i in Hmax. rewrite Hmax, Nat2Z.id, Hjbad. reflexivity.
    - fold i in Hmax. rewrite Hmax.
      assert (Hj01 : j = 0%nat \/ j = 1%nat) by lia.
      destruct Hj01 as [-> | ->].
      + change (Z.to_nat (1 - 1)) with 0%nat.
        rewrite Hjbad. apply andb_false_r.
      + change (Z.to_nat 1) with 1%nat. rewrite Hjbad. reflexivity. }
  unfold smoothed_averages.
  assert (Hseed :=
            @for_each_type_error _ _ (seed_step closes) (py_range 1 (period + 1))).
  assert (Hsmooth :=
            @for_each_type_error _ _ (smooth_step closes period)
                                 (py_range (period + 1) (Z.of_nat (length closes)))).
  destruct (Hseed (fun s k Hk => proj1 (seed_step_outcome s
                     (i := k) ltac:(apply py_range_in in Hk; lia)))
                  ([], [])) as [Hout Hfail].
  destruct (Z.le_gt_cases i period) as [Hfirst|Hlater].
  - rewrite Hfail; [reflexivity|]. exists i. split; [apply py_range_in; lia|].
    intros s0. now apply seed_step_outcome.
  - destruct Hout as [Herr|[[gains losses] Hok]]; [rewrite Herr; reflexivity|].
    rewrite Hok. cbn [rbind].
    rewrite !py_truediv_Q by (apply inject_Z_nonzero; lia). cbn [rbind].
    apply Hsmooth.
    + intros s k Hk. apply py_range_in in Hk.
      apply smooth_step_outcome. lia.
    + exists i. split; [apply py_range_in; lia|].
      intros s0. now apply smooth_step_outcome.
Qed.

End TypeErrors.



(** *** [compute_rsi]: one more close, falling series, shifted prices *)

Lemma py_range_snoc (a b : Z) :
  a <= b -> py_range a (b + 1) = py_range a b ++ [b].
Proof.
  intros Hab. unfold py_range.
  replace (Z.to_nat (b + 1 - a)) with (S (Z.to_nat (b - a))) by lia.
  rewrite seq_S, map_app. cbn [map]. do 2 f_equal. lia.
Qed.

Lemma nth_pred_last {A : Type} (l : list A) (d : A) :
  l <> [] -> nth (length l - 1) l d = last l d.
Proof.
  induction l as [|x l IH]; [congruence|]. intros _.
  destruct l as [|y l]; [reflexivity|].
  change (last (x :: y :: l) d) with (last (y :: l) d).
  rewrite <- IH by discriminate. cbn [length].
  rewrite !Nat.sub_succ, !Nat.sub_0_r. reflexivity.
Qed.

Lemma change_at_app (closes : list Q) (c : Q) (i : Z) :
  1 <= i < Z.of_nat (length closes) ->
  change_at (closes ++ [c]) i = change_at closes i.
Proof.
  intros Hi. unfold change_at. rewrite !app_nth1 by lia. reflexivity.
Qed.

Lemma change_at_new (closes : list Q) (c : Q) :
  closes <> [] ->
  change_at (closes ++ [c]) (Z.of_nat (length closes)) = (c - last closes 0)%Q.
Proof.
  intros Hne. unfold change_at.
  assert (Hlen : (0 < length closes)%nat)
    by (destruct closes; [congruence | simpl; lia]).
  rewrite Nat2Z.id, app_nth2, Nat.sub_diag by lia. cbn [nth].
  replace (Z.to_nat (Z.of_nat (length closes) - 1))
    with (length closes - 1)%nat by lia.
  rewrite app_nth1 by lia. rewrite nth_pred_last by exact Hne. reflexivity.
Qed.

Lemma q_averages_one_more (closes : list Q) (period : Z) (c : Q) :
  1 <= period ->
  period + 1 <= Z.of_nat (length closes) ->
  q_averages (closes ++ [c]) period =
  q_step period (q_averages closes period) (c - last closes 0)%Q.
Proof.
  intros Hp Hlen. unfold q_averages.
  assert (Hne : closes <> []) by (intros ->; simpl in Hlen; lia).
  rewrite length_app. cbn [length].
  replace (Z.of_nat (length closes + 1)) with (Z.of_nat (length closes) + 1) by lia.
  rewrite py_range_snoc by lia. rewrite map_app, fold_left_app. cbn [map fold_left].
  rewrite (@change_at_new closes c Hne).
  assert (Hseed : map (change_at (closes ++ [c])) (py_range 1 (period + 1)) =
                  map (change_at closes) (py_range 1 (period + 1))).
  { apply map_ext_in. intros i Hi. apply py_range_in in Hi.
    apply change_at_app. lia. }
  assert (Hrest : map (change_at (closes ++ [c]))
                      (py_range (period + 1) (Z.of_nat (length closes))) =
                  map (change_at closes)
                      (py_range (period + 1) (Z.of_nat (length closes)))).
  { apply map_ext_in. intros i Hi. apply py_range_in in Hi.
    apply change_at_app. lia. }
  rewrite Hseed, Hrest. reflexivity.
Qed.

(** X3. The averages are incremental: on a series that already has a
    reading, one more close changes the averages by exactly one more
    turn of the smoothing loop, applied to the averages of the series
    without it; the earlier closes are not revisited. *)
Theorem smoothed_averages_one_more_close :
  forall (closes : list Q) (period : Z) (c : Q) (avg : Q * Q),
    1 <= period ->
    period + 1 <= Z.of_nat (length closes) ->
    smoothed_averages (qcloses closes) period = Ok avg ->
    smoothed_averages (qcloses (closes ++ [c])) period =
    smooth_step (qcloses (closes ++ [c])) period avg (Z.of_nat (length closes)) /\
    smoothed_averages (qcloses (closes ++ [c])) period =
    Ok (((fst avg * inject_Z (period - 1)
          + py_max (c - last closes 0) 0) / inject_Z period)%Q,
        ((snd avg * inject_Z (period - 1)
          + Qabs (py_min (c - last closes 0) 0)) / inject_Z period)%Q).
Proof.
  intros closes period c avg Hp Hlen Havg.
  rewrite (smoothed_averages_qcloses _ Hp Hlen) in Havg. injection Havg as <-.
  assert (Hne : closes <> []) by (intros ->; simpl in Hlen; lia).
  assert (Hlen' : period + 1 <= Z.of_nat (length (closes ++ [c])))
    by (rewrite length_app; simpl; lia).
  rewrite (smoothed_averages_qcloses _ Hp Hlen').
  rewrite (@q_averages_one_more closes period c Hp Hlen).
  split; [|reflexivity].
  rewrite smooth_step_qcloses; [|lia|rewrite length_app; simpl; lia].
  rewrite (@change_at_new closes c Hne). reflexivity.
Qed.

Lemma smoothed_averages_one_more_close_witness :
  exists avg,
    smoothed_averages (qcloses falling_closes) 2 = Ok avg /\
    smoothed_averages (qcloses (falling_closes ++ [13%Q])) 2 =
    smooth_step (qcloses (falling_closes ++ [13%Q])) 2 avg 4.
Proof.
  destruct (smoothed_averages (qcloses falling_closes) 2) as [avg|e] eqn:Havg;
    [|vm_compute in Havg; discriminate Havg].
  exists avg. split; [reflexivity|].
  refine (proj1 (@smoothed_averages_one_more_close falling_closes 2 13%Q avg
                   _ _ Havg)); [lia | vm_compute; discriminate].
Defined.

Lemma non_increasing_no_gain (closes : list Q) :
  non_increasing closes = true ->
  Forall (fun d => Wilder.gain d == 0)%Q (Wilder.deltas closes).
Proof.
  intros Hni. apply Forall_forall. intros d Hin.
  unfold non_increasing in Hni. rewrite forallb_forall in Hni.
  specialize (Hni d Hin). apply Qle_bool_iff in Hni.
  unfold Wilder.gain. apply Q.max_r. lra.
Qed.

Lemma wilder_no_gain (closes : list Q) (period : Z) :
  Forall (fun d => Wilder.gain d == 0)%Q (Wilder.deltas closes) ->
  (fst (Wilder.averages closes period) == 0)%Q.
Proof.
  intros Hall.
  destruct (@deltas_split closes (Z.to_nat period) _ Hall) as [Hfirst Hrest].
  unfold Wilder.averages.
  assert (Hfold : forall l avg,
             Forall (fun d => Wilder.gain d == 0)%Q l ->
             (fst avg == 0)%Q ->
             (fst (fold_left (Wilder.update period) l avg) == 0)%Q).
  { induction l as [|d l IH]; intros avg Hl Havg; simpl; [exact Havg|].
    inversion Hl as [|? ? Hd Hl']; subst.
    apply IH; [exact Hl'|]. unfold Wilder.update. cbn [fst].
    rewrite Havg, Hd. unfold Qdiv. ring. }
  apply Hfold; [exact Hrest|].
  unfold Wilder.seed, Wilder.mean. cbn [fst].
  assert (Hsum : (fold_right Qplus 0
                    (map Wilder.gain (firstn (Z.to_nat period)
                                             (Wilder.deltas closes))) == 0)%Q).
  { induction Hfirst as [|d l Hd _ IH]; simpl; [reflexivity|].
    rewrite Hd, IH. reflexivity. }
  rewrite Hsum. unfold Qdiv. ring.
Qed.

(** X4. A price series that never rises has a reading of exactly 0 in
    exact arithmetic, provided its average loss reaches 1e-12 (below
    that, line 116 answers 100). *)
Theorem compute_rsi_falling_is_0 :
  forall (closes : list Q) (period : Z) (g l : Q),
    1 <= period ->
    period + 1 <= Z.of_nat (length closes) ->
    non_increasing closes = true ->
    smoothed_averages (qcloses closes) period = Ok (g, l) ->
    (1 # 1000000000000 <= Qabs l)%Q ->
    exists v, compute_rsi (qcloses closes) period = Ok (Some v) /\ (v == 0)%Q.
Proof.
  intros closes period g l Hp Hlen Hni Havg Hloss.
  rewrite (smoothed_averages_qcloses _ Hp Hlen) in Havg.
  exists (q_reading (q_averages closes period)).
  split; [now apply compute_rsi_qcloses|].
  destruct (q_averages_spec closes Hp Hlen) as [Hg _].
  rewrite (@wilder_no_gain closes period (non_increasing_no_gain _ Hni)) in Hg.
  injection Havg as Havg. rewrite Havg in Hg. cbn [fst] in Hg.
  rewrite Havg. unfold q_reading. cbn [fst snd].
  rewrite flt_Q_false by exact Hloss.
  rewrite Hg. unfold Qdiv. rewrite Qmult_0_l. reflexivity.
Qed.

Lemma compute_rsi_falling_is_0_witness :
  exists v, compute_rsi (qcloses falling_closes) 2 = Ok (Some v) /\ (v == 0)%Q.
Proof.
  destruct (smoothed_averages (qcloses falling_closes) 2) as [[g l]|e] eqn:Havg;
    [|vm_compute in Havg; discriminate Havg].
  refine (@compute_rsi_falling_is_0 falling_closes 2 g l _ _ _ Havg _).
  - lia.
  - vm_compute. discriminate.
  - reflexivity.
  - vm_compute in Havg. injection Havg as _ <-. vm_compute. discriminate.
Defined.

Lemma q_gain_comp (c c' : Q) : (c == c')%Q -> (q_gain c == q_gain c')%Q.
Proof.
  intros Hc. unfold q_gain, py_max. simpl. rewrite Hc.
  destruct (Qle_bool (inject_Z 0) c'); simpl; [exact Hc | reflexivity].
Qed.

Lemma q_loss_comp (c c' : Q) : (c == c')%Q -> (q_loss c == q_loss c')%Q.
Proof.
  intros Hc. unfold q_loss, py_min. simpl. rewrite Hc.
  destruct (Qle_bool c' (inject_Z 0)); simpl; [rewrite Hc|]; reflexivity.
Qed.

Lemma py_sum_comp (l l' : list Q) :
  Forall2 Qeq l l' -> (py_sum l == py_sum l')%Q.
Proof.
  intros Hl. unfold py_sum. simpl.
  assert (Hacc : forall a a', (a == a')%Q ->
                              (fold_left Qplus l a == fold_left Qplus l' a')%Q).
  { induction Hl as [|x y l l' Hxy _ IH]; intros a a' Ha; simpl; [exact Ha|].
    apply IH. rewrite Ha, Hxy. reflexivity. }
  apply Hacc. reflexivity.
Qed.

Lemma q_step_comp (period : Z) (avg avg' : Q * Q) (c c' : Q) :
  avg_eq avg avg' -> (c == c')%Q ->
  avg_eq (q_step period avg c) (q_step period avg' c').
Proof.
  intros [Hg Hl] Hc. unfold avg_eq, q_step. cbn [fst snd].
  rewrite Hg, Hl, (q_gain_comp Hc), (q_loss_comp Hc). split; reflexivity.
Qed.

Lemma q_fold_comp (period : Z) (l l' : list Q) :
  Forall2 Qeq l l' ->
  forall avg avg', avg_eq avg avg' ->
    avg_eq (fold_left (q_step period) l avg) (fold_left (q_step period) l' avg').
Proof.
  induction 1 as [|c c' l l' Hc _ IH]; intros avg avg' Havg; simpl; [exact Havg|].
  apply IH. now apply q_step_comp.
Qed.

Lemma q_reading_comp (avg avg' : Q * Q) :
  avg_eq avg avg' -> (q_reading avg == q_reading avg')%Q.
Proof.
  intros [Hg Hl]. unfold q_reading. simpl. rewrite Hl.
  destruct (Qle_bool (1 # 1000000000000) (Qabs (snd avg'))); simpl;
    [rewrite Hg, Hl|]; reflexivity.
Qed.

Lemma Forall2_map_pointwise {A : Type} (f g : A -> Q) (l : list A) :
  (forall x, In x l -> f x == g x)%Q -> Forall2 Qeq (map f l) (map g l).
Proof.
  induction l as [|x l IH]; intros Hfg; simpl; constructor.
  - apply Hfg. now left.
  - apply IH. intros y Hy. apply Hfg. now right.
Qed.

Lemma change_at_shift (closes : list Q) (c : Q) (i : Z) :
  1 <= i < Z.of_nat (length closes) ->
  (change_at (map (Qplus c) closes) i == change_at closes i)%Q.
Proof.
  intros Hi. unfold change_at.
  rewrite !(@nth_indep _ (map (Qplus c) closes) _ 0%Q (c + 0)%Q)
    by (rewrite length_map; lia).
  rewrite !(map_nth (Qplus c)). ring.
Qed.

Lemma q_averages_shift (closes : list Q) (period : Z) (c : Q) :
  1 <= period ->
  period + 1 <= Z.of_nat (length closes) ->
  avg_eq (q_averages (map (Qplus c) closes) period) (q_averages closes period).
Proof.
  intros Hp Hlen. unfold q_averages. rewrite length_map.
  assert (Hseed : Forall2 Qeq
            (map (change_at (map (Qplus c) closes)) (py_range 1 (period + 1)))
            (map (change_at closes) (py_range 1 (period + 1)))).
  { apply Forall2_map_pointwise. intros i Hi. apply py_range_in in Hi.
    apply change_at_shift. lia. }
  assert (Hrest : Forall2 Qeq
            (map (change_at (map (Qplus c) closes))
                 (py_range (period + 1) (Z.of_nat (length closes))))
            (map (change_at closes)
                 (py_range (period + 1) (Z.of_nat (length closes))))).
  { apply Forall2_map_pointwise. intros i Hi. apply py_range_in in Hi.
    apply change_at_shift. lia. }
  apply q_fold_comp; [exact Hrest|].
  assert (Hmap : forall (f : Q -> Q) l l',
             (forall x y, x == y -> f x == f y)%Q ->
             Forall2 Qeq l l' -> Forall2 Qeq (map f l) (map f l')).
  { intros f l l' Hf Hl. induction Hl; simpl; constructor; auto. }
  unfold avg_eq. cbn [fst snd]. split.
  - rewrite (py_sum_comp (Hmap q_gain _ _ q_gain_comp Hseed)). reflexivity.
  - rewrite (py_sum_comp (Hmap q_loss _ _ q_loss_comp Hseed)). reflexivity.
Qed.



(** *** [closes_from_ohlc]: composition and size *)

(** X6. [closes_from_ohlc] works candle by candle: the price series of
    two candle sequences put end to end is the first series followed by
    the second. *)
Theorem closes_from_ohlc_app :
  forall (F : Type) (ohlc1 ohlc2 : list (json F)),
  exists closes1 closes2,
    closes_from_ohlc ohlc1 = Ok closes1 /\
    closes_from_ohlc ohlc2 = Ok closes2 /\
    closes_from_ohlc (ohlc1 ++ ohlc2) = Ok (closes1 ++ closes2).
Proof.
  intros F ohlc1 ohlc2. unfold closes_from_ohlc.
  destruct (keep_close_loop ohlc1 []) as [c1 [Hrun1 _]].
  destruct (keep_close_loop ohlc2 []) as [c2 [Hrun2 Hps2]].
  destruct (keep_close_loop ohlc2 c1) as [c2' [Hrun2' Hps2']].
  rewrite (price_series_functional Hps2' Hps2) in Hrun2'.
  exists c1, c2. cbn [app] in Hrun1, Hrun2.
  split; [exact Hrun1|]. split; [exact Hrun2|].
  rewrite for_each_app, Hrun1. cbn [rbind]. exact Hrun2'.
Qed.

Lemma price_series_length {F : Type} (ohlc closes : list (json F)) :
  price_series ohlc closes ->
  length closes = length (filter is_candle_row ohlc).
Proof.
  induction 1 as [ | row ohlc closes Hbad _ IH | items c ohlc closes Hc _ IH ];
    cbn [filter]; [reflexivity | | ].
  - assert (Hrow : is_candle_row row = false).
    { destruct row as [ | b | x | s | items | fields ]; try reflexivity.
      specialize (Hbad items eq_refl). cbn [is_candle_row].
      apply Nat.leb_gt. exact Hbad. }
    rewrite Hrow. exact IH.
  - assert (Hrow : is_candle_row (JArr items) = true).
    { cbn [is_candle_row]. apply Nat.leb_le.
      assert (4 < length items)%nat by (apply nth_error_Some; congruence). lia. }
    rewrite Hrow. cbn [length]. rewrite IH. reflexivity.
Qed.

(** X7. The price series has one close for each row that is an array
    of at least five entries and nothing else: never more closes than
    candles, and as many when no row is malformed. *)
Theorem closes_from_ohlc_length :
  forall (F : Type) (ohlc : list (json F)),
  exists closes,
    closes_from_ohlc ohlc = Ok closes /\
    length closes = length (filter is_candle_row ohlc) /\
    (length closes <= length ohlc)%nat /\
    (forallb is_candle_row ohlc = true -> length closes = length ohlc).
Proof.
  intros F ohlc. destruct (keep_close_loop ohlc []) as [closes [Hrun Hps]].
  exists closes. split; [exact Hrun|].
  pose proof (price_series_length Hps) as Hlen.
  split; [exact Hlen|]. split.
  - rewrite Hlen. apply filter_length_le.
  - intros Hall. rewrite Hlen. clear Hlen Hps Hrun.
    induction ohlc as [|row ohlc IH]; [reflexivity|].
    cbn [forallb] in Hall. apply andb_true_iff in Hall. destruct Hall as [Hrow Hall].
    cbn [filter]. rewrite Hrow. cbn [length]. now rewrite IH.
Qed.

(** *** [fetch_top_coins]: how many requests *)

(** X8. Asked for no coin, or for a negative number of coins,
    [fetch_top_coins] returns the empty list and sends no request. *)
Theorem fetch_top_coins_nothing_asked :
  forall (F : Type) (net : nat -> request F -> result (response F))
         (n : Z) (w : world F),
    n <= 0 ->
    fetch_top_coins net n w = Some (Ok [], w).
Proof.
  intros F net n w Hn. unfold fetch_top_coins.
  replace (Z.to_nat n) with 0%nat by lia. cbn [top_coins_loop length].
  destruct (Z.ltb_spec (Z.of_nat 0) n) as [Hlt|_]; [simpl in Hlt; lia|].
  unfold py_slice_to. destruct (0 <=? n); rewrite firstn_nil; reflexivity.
Qed.

Lemma fetch_top_coins_nothing_asked_witness :
  fetch_top_coins sample_net (-3) w0 = Some (Ok [], w0).
Proof. apply fetch_top_coins_nothing_asked. lia. Defined.

(** Every page before the last one was full, so the pages before the
    last one hold fewer than [n] rows. *)
Lemma paging_count {F : Type}
      (net : nat -> request F -> result (response F)) (n per_page : Z)
      k page results rqs out :
  paging net n per_page k page results rqs out ->
  rqs <> [] ->
  Z.of_nat (length results) + (Z.of_nat (length rqs) - 1) * per_page < n.
Proof.
  induction 1 as [ k page results Hge
                 | k page results e Hlt Hpage
                 | k page results batch Hlt Hpage Hshort
                 | k page results batch rqs out Hlt Hpage Hfull Hrest IH ];
    intros Hne; cbn [length]; try congruence; try lia.
  destruct rqs as [|rq rqs]; [simpl; lia|].
  specialize (IH ltac:(discriminate)).
  rewrite length_app in IH. cbn [length] in IH |- *. nia.
Qed.





(** *** The main loop: alerts, malformed assets, traffic *)

Lemma mfor_each_app {F S I : Type} (body : S -> I -> M F S)
      (l1 l2 : list I) (s : S) (w : world F) :
  mfor_each body s (l1 ++ l2) w =
  match mfor_each body s l1 w with
  | (Ok s', w') => mfor_each body s' l2 w'
  | (Err e, w') => (Err e, w')
  end.
Proof.
  revert s w; induction l1 as [|i l1 IH]; intros s w; [reflexivity|].
  cbn [app mfor_each]. unfold mbind.
  destruct (body s i w) as [[s'|e] w']; [apply IH | reflexivity].
Qed.

(** What a call of [fetch_ohlc] adds to the log. *)
Lemma fetch_ohlc_world {F : Type} (net : nat -> request F -> result (response F))
      (coin_id : json F) (days : Z) (w : world F) :
  let rq := GetOhlc coin_id days in
  let retried := is_429 (attempt net (length (sent w)) rq) in
  snd (fetch_ohlc net coin_id days w) =
  {| sent := sent w ++ rq :: (if retried then [rq] else []);
     slept := slept w ++ (if retried then [5] else []) |}.
Proof.
  intros rq retried. subst retried.
  unfold fetch_ohlc, mtry, _fetch_ohlc_once. rewrite get_json_attempt. fold rq.
  destruct (attempt net (length (sent w)) rq) as [payload|e]; cbn [is_429 snd].
  - rewrite app_nil_r. reflexivity.
  - destruct e as [[code|]| | | | | | ]; cbn [is_429];
      try (unfold mraise; cbn [snd]; rewrite app_nil_r; reflexivity).
    destruct (code =? 429).
    + unfold mbind, sleep. rewrite get_json_attempt. cbn [snd sent slept].
      rewrite <- app_assoc. reflexivity.
    + unfold mraise. cbn [snd]. rewrite app_nil_r. reflexivity.
Qed.

Section MainLoop.
Context {F : Type} `{PyFloat F}.
Variable net : nat -> request F -> result (response F).
Variable str_upper : string -> string.
Variable round2 : F -> F.
Variables (rsi_period : Z) (low_th high_th : F).

Lemma rsi_of_candles_world (coin_id : json F) (w : world F) :
  snd (rsi_of_candles net rsi_period coin_id w) =
  snd (fetch_ohlc net coin_id 1 w).
Proof.
  unfold rsi_of_candles, mbind, lift.
  destruct (fetch_ohlc net coin_id 1 w) as [[ohlc|e] w']; [|reflexivity].
  destruct (closes_from_ohlc ohlc) as [closes|e]; reflexivity.
Qed.

(** One turn of the main loop either raises [AttributeError] before
    any traffic, or appends one row, at most one alert, and leaves the
    world as the asset's fetch left it. *)
Lemma process_coin_cases (rows : list (row F)) (alerts : list (alert F))
      (coin : json F) (w : world F) :
  (asset_ok coin = false /\
   process_coin net str_upper round2 rsi_period low_th high_th
                (rows, alerts) coin w = (Err AttributeError, w)) \/
  (asset_ok coin = true /\
   exists id name symbol price rsi,
     process_coin net str_upper round2 rsi_period low_th high_th
                  (rows, alerts) coin w =
     (Ok (rows ++ [{| Name := name; Symbol := symbol; Price := price;
                      RSI := option_map round2 rsi |}],
          match rsi with
          | Some v => if is_alert low_th high_th (Some v)
                      then alerts ++ [(name, symbol, v, price)]
                      else alerts
          | None => alerts
          end),
      snd (fetch_ohlc net id 1 w))).
Proof.
  destruct coin as [ | b | x | s | items | fields ];
    try (left; split; reflexivity).
  destruct (py_get_object fields "id" JNull) as [id Hid].
  destruct (py_get_object fields "name" id) as [name Hname].
  destruct (py_get_object fields "current_price" JNull) as [price Hprice].
  unfold process_coin, mbind, lift. rewrite Hid, Hname.
  unfold asset_ok, py_get.
  destruct (find (fun kv => String.eqb (fst kv) "symbol") fields)
    as [[key sv]|] eqn:Hfind; cbn [snd].
  - destruct sv as [ | b | x | s | items | fields' ];
      try (left; split; reflexivity).
    right. split; [reflexivity|]. cbn [py_upper].
    fold (py_get (JObj fields) "current_price" JNull). rewrite Hprice.
    rewrite coin_rsi_never_raises, rsi_of_candles_world. cbn [mret].
    exists id, name, (str_upper s), price,
           (reading_of (fst (rsi_of_candles net rsi_period id w))).
    destruct (reading_of (fst (rsi_of_candles net rsi_period id w))); reflexivity.
  - right. split; [reflexivity|]. cbn [py_upper].
    fold (py_get (JObj fields) "current_price" JNull). rewrite Hprice.
    rewrite coin_rsi_never_raises, rsi_of_candles_world. cbn [mret].
    exists id, name, (str_upper ""), price,
           (reading_of (fst (rsi_of_candles net rsi_period id w))).
    destruct (reading_of (fst (rsi_of_candles net rsi_period id w))); reflexivity.
Qed.

Lemma alerts_match_more (rows extra : list (row F)) (alerts : list (alert F)) :
  alerts_match round2 low_th high_th rows alerts ->
  alerts_match round2 low_th high_th (rows ++ extra) alerts.
Proof.
  unfold alerts_match. intros Hall. eapply Forall_impl; [|exact Hall].
  intros [[[name symbol] v] price] [Halert Hin].
  split; [exact Halert | apply in_or_app; now left].
Qed.

Lemma main_loop_alerts_acc (coins : list (json F)) :
  forall rows0 alerts0 w rows alerts w',
    mfor_each (process_coin net str_upper round2 rsi_period low_th high_th)
              (rows0, alerts0) coins w = (Ok (rows, alerts), w') ->
    alerts_match round2 low_th high_th rows0 alerts0 ->
    (length alerts0 <= length rows0)%nat ->
    length rows = (length rows0 + length coins)%nat /\
    (length alerts <= length rows)%nat /\
    alerts_match round2 low_th high_th rows alerts.
Proof.
  induction coins as [|coin coins IH];
    intros rows0 alerts0 w rows alerts w' Hrun Hmatch Hlen.
  - cbn [mfor_each] in Hrun. unfold mret in Hrun. injection Hrun as <- <- _.
    cbn [length]. rewrite Nat.add_0_r. repeat split; assumption.
  - cbn [mfor_each] in Hrun. unfold mbind in Hrun at 1.
    destruct (process_coin_cases rows0 alerts0 coin w)
      as [[_ Hstep]|[_ [id [name [symbol [price [rsi Hstep]]]]]]];
      rewrite Hstep in Hrun; [discriminate|].
    apply IH in Hrun.
    + destruct Hrun as [Hrows [Halerts Hm]].
      rewrite length_app in Hrows. cbn [length] in Hrows |- *.
      split; [lia|]. split; assumption.
    + destruct rsi as [v|]; [|now apply alerts_match_more].
      destruct (is_alert low_th high_th (Some v)) eqn:Halert;
        [|now apply alerts_match_more].
      apply Forall_app. split; [now apply alerts_match_more|].
      constructor; [|constructor]. split; [exact Halert|].
      apply in_or_app. right. now left.
    + rewrite length_app. cbn [length].
      destruct rsi as [v|]; [|lia].
      destruct (is_alert low_th high_th (Some v)); [|lia].
      rewrite length_app. cbn [length]. lia.
Qed.

(** X11. Whenever the main loop ends, it has one row per asset and no
    more alerts than rows, and every alert is the unrounded reading of
    one of the rows: the reading crossed a threshold, and the table has
    a row of the same name, symbol and price whose RSI is that reading
    rounded. *)
Theorem main_loop_alerts :
  forall (coins : list (json F)) (w w' : world F)
         (rows : list (row F)) (alerts : list (alert F)),
    main_loop net str_upper round2 rsi_period low_th high_th coins w
    = (Ok (rows, alerts), w') ->
    length rows = length coins /\
    (length alerts <= length rows)%nat /\
    Forall (fun a : alert F =>
              let '(name, symbol, v, price) := a in
              is_alert low_th high_th (Some v) = true /\
              In {| Name := name; Symbol := symbol; Price := price;
                    RSI := Some (round2 v) |} rows)
           alerts.
Proof.
  intros coins w w' rows alerts Hrun.
  unfold main_loop in Hrun. apply main_loop_alerts_acc in Hrun;
    [exact Hrun | constructor | reflexivity].
Qed.

(** X12. An asset that is not an object, or whose symbol is not a
    string, ends the main loop with [AttributeError]: the assets before
    it have been fetched, no request is sent for it or for the assets
    after it, and there is no table. *)
Theorem main_loop_malformed_asset :
  forall (before after : list (json F)) (bad : json F) (w : world F),
    forallb asset_ok before = true ->
    asset_ok bad = false ->
    main_loop net str_upper round2 rsi_period low_th high_th
              (before ++ bad :: after) w =
    (Err AttributeError,
     snd (main_loop net str_upper round2 rsi_period low_th high_th before w)) /\
    report net str_upper round2 rsi_period low_th high_th
           (before ++ bad :: after) w =
    (Err AttributeError,
     snd (main_loop net str_upper round2 rsi_period low_th high_th before w)).
Proof.
  intros before after bad w Hbefore Hbad.
  assert (Hloop : main_loop net str_upper round2 rsi_period low_th high_th
                            (before ++ bad :: after) w =
                  (Err AttributeError,
                   snd (main_loop net str_upper round2 rsi_period low_th
                                  high_th before w))).
  { unfold main_loop. rewrite mfor_each_app.
    destruct (main_loop_rows net str_upper round2 rsi_period low_th high_th
                             before Hbefore [] [] w)
      as [rows [alerts [w1 [Hrun _]]]].
    rewrite Hrun. cbn [snd mfor_each]. unfold mbind.
    destruct (process_coin_cases ([] ++ rows) alerts bad w1)
      as [[_ Hstep]|[Hok _]]; [|congruence].
    rewrite Hstep. reflexivity. }
  split; [exact Hloop|].
  unfold report, mbind. rewrite Hloop. reflexivity.
Qed.

Lemma main_loop_traffic_acc (coins : list (json F)) :
  forall acc w,
  exists rqs naps,
    snd (mfor_each (process_coin net str_upper round2 rsi_period low_th high_th)
                   acc coins w) =
    {| sent := sent w ++ rqs; slept := slept w ++ naps |} /\
    Forall (fun rq => exists id, rq = GetOhlc id 1) rqs /\
    Forall (fun nap => nap = 5) naps /\
    (length naps <= length coins)%nat /\
    (length rqs <= length coins + length naps)%nat /\
    (forall out,
        fst (mfor_each (process_coin net str_upper round2 rsi_period
                                     low_th high_th) acc coins w) = Ok out ->
        length rqs = (length coins + length naps)%nat).
Proof.
  induction coins as [|coin coins IH]; intros [rows alerts] w.
  - exists [], []. cbn [mfor_each]. unfold mret. cbn [snd].
    rewrite !app_nil_r. destruct w. repeat split; try constructor; auto.
  - cbn [mfor_each]. unfold mbind at 1 2.
    destruct (process_coin_cases rows alerts coin w)
      as [[_ Hstep]|[_ [id [name [symbol [price [rsi Hstep]]]]]]];
      rewrite Hstep.
    + exists [], []. cbn [snd fst]. rewrite !app_nil_r. destruct w.
      repeat split; try constructor; cbn [length]; try lia.
      intros out Hout. discriminate.
    + pose proof (fetch_ohlc_world net id 1 w) as Hw1. cbv zeta in Hw1.
      set (rq := GetOhlc id 1) in *.
      set (retried := is_429 (attempt net (length (sent w)) rq)) in *.
      set (w1 := snd (fetch_ohlc net id 1 w)) in *.
      assert (Hsent : sent w1 = sent w ++ rq :: (if retried then [rq] else []))
        by (rewrite Hw1; reflexivity).
      assert (Hslept : slept w1 = slept w ++ (if retried then [5] else []))
        by (rewrite Hw1; reflexivity).
      clearbody w1. clear Hw1.
      match goal with
      | |- context [mfor_each _ ?a coins w1] =>
          destruct (IH a w1) as [rqs [naps [Hw [Hrqs [Hnaps [Hn [Hr Hok]]]]]]]
      end.
      exists ((rq :: (if retried then [rq] else [])) ++ rqs),
             ((if retried then [5] else []) ++ naps).
      split; [rewrite Hw, Hsent, Hslept, <- !app_assoc; reflexivity|].
      split.
      { apply Forall_app. split; [|exact Hrqs].
        destruct retried; repeat constructor; exists id; reflexivity. }
      split.
      { apply Forall_app. split; [|exact Hnaps].
        destruct retried; repeat constructor. }
      rewrite !length_app. destruct retried; cbn [length]; repeat split; try lia.
      * intros out Hout. specialize (Hok out Hout). lia.
      * intros out Hout. specialize (Hok out Hout). lia.
Qed.


(** X21. The table is the rows of the main loop in another order:
    sorting drops no row, adds none, sends nothing, and hands the alerts
    over as the loop made them. *)
Theorem report_rearranges_rows :
  forall (coins : list (json F)) (w w' : world F)
         (df : list (row F)) (alerts : list (alert F)),
    report net str_upper round2 rsi_period low_th high_th coins w
    = (Ok (df, alerts), w') ->
    exists rows,
      main_loop net str_upper round2 rsi_period low_th high_th coins w
      = (Ok (rows, alerts), w') /\
      Permutation rows df.
Proof.
  intros coins w w' df alerts. unfold report, mbind, lift.
  destruct (main_loop net str_upper round2 rsi_period low_th high_th coins w)
    as [[[rows alerts0]|e] w1]; [|discriminate].
  destruct (sort_values rows) as [df0|e] eqn:Hdf; [|discriminate].
  cbn [mret]. intros Hreport. injection Hreport as <- <- <-.
  exists rows. split; [reflexivity | exact (sort_values_perm _ Hdf)].
Qed.

End MainLoop.

Lemma main_loop_alerts_witness :
  exists rows alerts w',
    main_loop sample_net ascii_upper Q_round2 2 25%Q 75%Q sample_coins w0
    = (Ok (rows, alerts), w') /\
    length rows = length sample_coins /\
    (length alerts <= length rows)%nat /\
    alerts_match Q_round2 25%Q 75%Q rows alerts.
Proof.
  destruct (main_loop sample_net ascii_upper Q_round2 2 25%Q 75%Q sample_coins w0)
    as [[[rows alerts]|e] w'] eqn:Hrun;
    [|vm_compute in Hrun; discriminate Hrun].
  exists rows, alerts, w'. split; [reflexivity|].
  exact (main_loop_alerts _ _ _ _ _ _ _ _ Hrun).
Defined.

Lemma main_loop_malformed_asset_witness :
  main_loop sample_net ascii_upper Q_round2 2 25%Q 75%Q
            ([asset "btc" "Bitcoin" "btc" 60000] ++ nameless_asset
             :: [asset "sol" "Solana" "sol" 150]) w0 =
  (Err AttributeError,
   snd (main_loop sample_net ascii_upper Q_round2 2 25%Q 75%Q
                  [asset "btc" "Bitcoin" "btc" 60000] w0)).
Proof.
  refine (proj1 (main_loop_malformed_asset sample_net ascii_upper Q_round2 2
                   25%Q 75%Q [asset "btc" "Bitcoin" "btc" 60000]
                   [asset "sol" "Solana" "sol" 150] nameless_asset w0 _ _));
    reflexivity.
Defined.

Lemma report_rearranges_rows_witness :
  exists df alerts w' rows,
    report sample_net ascii_upper Q_round2 2 25%Q 75%Q sample_coins w0
    = (Ok (df, alerts), w') /\
    main_loop sample_net ascii_upper Q_round2 2 25%Q 75%Q sample_coins w0
    = (Ok (rows, alerts), w') /\
    Permutation rows df.
Proof.
  destruct (report sample_net ascii_upper Q_round2 2 25%Q 75%Q sample_coins w0)
    as [[[df alerts]|e] w'] eqn:Hreport;
    [|vm_compute in Hreport; discriminate Hreport].
  destruct (report_rearranges_rows _ _ _ _ _ _ _ _ Hreport) as [rows [Hrun Hperm]].
  exists df, alerts, w', rows. split; [reflexivity|]. split; assumption.
Defined.

(** *** The whole cycle *)

Section WholeCycle.
Context {F : Type} `{PyFloat F}.
Variable net : nat -> request F -> result (response F).
Variable str_upper : string -> string.
Variable round2 : F -> F.
Variables (rsi_period : Z) (low_th high_th : F).

(** X14. A failure of the ranked list is the failure of the cycle: the
    cycle raises the same error, has sent requests for the ranked list
    only, all with the page size [min(250, n)], and has not slept. *)
Theorem run_cycle_ranked_list_failure :
  forall (n : Z) (w w1 : world F) (e : exn),
    fetch_top_coins net n w = Some (Err e, w1) ->
    run_cycle net str_upper round2 rsi_period low_th high_th n w
    = Some (Err e, w1) /\
    exists rqs,
      w1 = {| sent := sent w ++ rqs; slept := slept w |} /\
      Forall (fun rq => exists page, rq = GetMarkets (Z.min 250 n) page) rqs.
Proof.
  intros n w w1 e Hfetch. split; [unfold run_cycle; rewrite Hfetch; reflexivity|].
  unfold fetch_top_coins in Hfetch.
  assert (Hpp : 1 <= n -> 1 <= Z.min 250 n) by lia.
  destruct (top_coins_loop_paging net Hpp (Z.to_nat n) [] 1 w)
    as [out [rqs [Hrun Hpaging]]]; [simpl; lia|].
  rewrite Hrun in Hfetch. injection Hfetch as _ <-.
  exists rqs. split; [reflexivity|].
  rewrite (paging_requests Hpaging). apply Forall_forall.
  intros rq Hin. apply in_map_iff in Hin. destruct Hin as [j [<- _]].
  eexists. reflexivity.
Qed.

(** X15. A cycle that ends with a table has at most [n] rows in it,
    and no more alerts than rows. *)
Theorem run_cycle_table_size :
  forall (n : Z) (w w' : world F) (df : list (row F)) (alerts : list (alert F)),
    run_cycle net str_upper round2 rsi_period low_th high_th n w
    = Some (Ok (df, alerts), w') ->
    Z.of_nat (length df) <= Z.max 0 n /\
    (length alerts <= length df)%nat.
Proof.
  intros n w w' df alerts. unfold run_cycle.
  destruct (fetch_top_coins net n w) as [[[coins|e] w1]|] eqn:Hfetch;
    try discriminate.
  intros Hreport. injection Hreport as Hreport.
  destruct (report_rearranges_rows _ _ _ _ _ _ _ _ Hreport) as [rows [Hrun Hperm]].
  destruct (main_loop_alerts _ _ _ _ _ _ _ _ Hrun) as [Hrows [Halerts _]].
  rewrite <- (Permutation_length Hperm).
  split; [|exact Halerts].
  unfold fetch_top_coins in Hfetch.
  assert (Hpp : 1 <= n -> 1 <= Z.min 250 n) by lia.
  destruct (top_coins_loop_paging net Hpp (Z.to_nat n) [] 1 w)
    as [out [rqs [Hloop Hpaging]]]; [simpl; lia|].
  rewrite Hloop in Hfetch. injection Hfetch as -> _.
  rewrite Hrows. apply (paging_at_most Hpaging); reflexivity.
Qed.

End WholeCycle.

Lemma run_cycle_ranked_list_failure_witness :
  run_cycle (fun k rq => Ok {| status_code := 503; body := None |})
            ascii_upper Q_round2 13 25%Q 75%Q 100 w0
  = Some (Err (HTTPError (Some 503)),
          {| sent := [GetMarkets 100 1]; slept := [] |}).
Proof.
  refine (proj1 (run_cycle_ranked_list_failure _ ascii_upper Q_round2 13
                   25%Q 75%Q 100 w0 _)).
  reflexivity.
Defined.

Lemma run_cycle_table_size_witness :
  exists df alerts w',
    run_cycle sample_net ascii_upper Q_round2 2 25%Q 75%Q 2 w0
    = Some (Ok (df, alerts), w') /\
    Z.of_nat (length df) <= Z.max 0 2 /\
    (length alerts <= length df)%nat.
Proof.
  destruct (run_cycle sample_net ascii_upper Q_round2 2 25%Q 75%Q 2 w0)
    as [[[[df alerts]|e] w']|] eqn:Hrun;
    [ | vm_compute in Hrun; discriminate Hrun
      | vm_compute in Hrun; discriminate Hrun ].
  exists df, alerts, w'. split; [reflexivity|].
  exact (run_cycle_table_size _ _ _ _ _ _ _ _ Hrun).
Defined.

(** *** The notifier and the alert panel *)

Section Notifications.
Context {F : Type} `{PyFloat F}.
Variable telegram : nat -> telegram_post -> result (response F).
Variable alert_text : string -> F -> json F -> string -> F -> json F -> string.
Variables (low_th high_th : F).

(** [notify_telegram] sends one post and answers whether it was
    delivered; nothing the server does makes it raise. *)
Lemma notify_telegram_outcome (text token chat_id : string)
      (posts : list telegram_post) :
  let post := {| post_token := token; post_chat_id := chat_id;
                 post_text := text |} in
  notify_telegram telegram text token chat_id posts =
  (delivered telegram (length posts) post, posts ++ [post]).
Proof.
  intros post. unfold notify_telegram, delivered. fold post.
  destruct (telegram (length posts) post) as [r|e]; cbn [rbind]; [|reflexivity].
  unfold raise_for_status.
  destruct ((400 <=? status_code r) && (status_code r <? 600)); reflexivity.
Qed.

Lemma delivered_count_bounds (k : nat) (new : list telegram_post) :
  0 <= delivered_count telegram k new <= Z.of_nat (length new).
Proof.
  revert k; induction new as [|post new IH]; intros k; cbn [delivered_count length].
  - lia.
  - specialize (IH (S k)). destruct (delivered telegram k post); lia.
Qed.

(** X17. The sending loop posts one message per alert, in the order of
    the alerts, whether or not earlier messages were delivered, and
    counts the messages delivered; the count grows by at most the number
    of alerts. *)
Theorem send_alerts_one_post_each :
  forall (token chat_id : string) (alerts : list (alert F))
         (sent : Z) (posts : list telegram_post),
    let new := map (post_of alert_text low_th high_th token chat_id) alerts in
    send_alerts telegram alert_text low_th high_th token chat_id alerts sent posts
    = (sent + delivered_count telegram (length posts) new, posts ++ new) /\
    0 <= delivered_count telegram (length posts) new <= Z.of_nat (length alerts).
Proof.
  intros token chat_id alerts sent posts new. split.
  - subst new. revert sent posts.
    induction alerts as [|a alerts IH]; intros sent posts;
      cbn [send_alerts map delivered_count].
    + rewrite Z.add_0_r, app_nil_r. reflexivity.
    + rewrite notify_telegram_outcome. cbv zeta.
      rewrite IH. rewrite length_app, Nat.add_1_r, <- app_assoc.
      change {| post_token := token; post_chat_id := chat_id;
                post_text := alert_line alert_text low_th high_th a |}
        with (post_of alert_text low_th high_th token chat_id a).
      cbn [app].
      destruct (delivered telegram (length posts)
                          (post_of alert_text low_th high_th token chat_id a));
        f_equal; lia.
  - pose proof (delivered_count_bounds (length posts) new) as Hb.
    subst new. rewrite length_map in Hb. exact Hb.
Qed.

(** X18. No message is posted unless the token and the chat id are both
    non-empty, there is an alert, and the button was pressed. *)
Theorem telegram_panel_guard :
  forall (token chat_id : string) (alerts : list (alert F)) (pressed : bool)
         (posts : list telegram_post),
    token = ""%string \/ chat_id = ""%string \/ alerts = [] \/ pressed = false ->
    telegram_panel telegram alert_text low_th high_th token chat_id alerts
                   pressed posts = (None, posts).
Proof.
  intros token chat_id alerts pressed posts Hguard. unfold telegram_panel.
  destruct Hguard as [-> | [-> | [-> | ->]]].
  - reflexivity.
  - rewrite andb_false_r. reflexivity.
  - rewrite andb_false_r. reflexivity.
  - destruct (_ && _ && _); reflexivity.
Qed.

(** X19. With a token, a chat id, an alert and the button pressed, every
    alert is posted once, and the outcome shown is the number of
    messages delivered, or a failure when none was. *)
Theorem telegram_panel_sends_all :
  forall (token chat_id : string) (alerts : list (alert F))
         (posts : list telegram_post),
    token <> ""%string -> chat_id <> ""%string -> alerts <> [] ->
    let new := map (post_of alert_text low_th high_th token chat_id) alerts in
    let count := delivered_count telegram (length posts) new in
    telegram_panel telegram alert_text low_th high_th token chat_id alerts
                   true posts
    = (Some (if 0 <? count then Delivered count else NotDelivered),
       posts ++ new).
Proof.
  intros token chat_id alerts posts Htoken Hchat Halerts new count.
  unfold telegram_panel.
  apply String.eqb_neq in Htoken, Hchat. rewrite Htoken, Hchat.
  destruct alerts as [|a alerts]; [congruence|]. cbn [negb andb].
  destruct (send_alerts_one_post_each token chat_id (a :: alerts) 0 posts)
    as [Hsend _].
  rewrite Hsend. fold new. fold count. rewrite Z.add_0_l. reflexivity.
Qed.

End Notifications.

Lemma telegram_panel_guard_witness :
  telegram_panel flaky_telegram plain_text 25%Q 75%Q "" "chat" sample_alerts
                 true [] = (None, []).
Proof. apply telegram_panel_guard. left. reflexivity. Defined.

Lemma telegram_panel_sends_all_witness :
  telegram_panel flaky_telegram plain_text 25%Q 75%Q "token" "chat"
                 sample_alerts true [] =
  (Some (Delivered 2),
   [{| post_token := "token"; post_chat_id := "chat"; post_text := "<= SOL" |};
    {| post_token := "token"; post_chat_id := "chat"; post_text := ">= PEPE" |};
    {| post_token := "token"; post_chat_id := "chat"; post_text := "<= DOGE" |}]).
Proof.
  refine (telegram_panel_sends_all flaky_telegram plain_text 25%Q 75%Q
            (token := "token") (chat_id := "chat") (alerts := sample_alerts)
            [] _ _ _); discriminate.
Defined.

(** X20. With [low < high], the message of an alert names a threshold
    the reading did cross: ["<="] with the low threshold when the
    reading is at or below it, [">="] with the high threshold otherwise,
    and then the reading is at or above the high threshold. *)
Theorem alert_line_names_crossed_threshold :
  forall (alert_text : string -> Q -> json Q -> string -> Q -> json Q -> string)
         (low high : Q) (name : json Q) (symbol : string) (v : Q)
         (price : json Q),
    (low < high)%Q ->
    is_alert low high (Some v) = true ->
    ((v <= low)%Q /\
     alert_line alert_text low high (name, symbol, v, price) =
     alert_text "<="%string low name symbol v price) \/
    ((low < v)%Q /\ (high <= v)%Q /\
     alert_line alert_text low high (name, symbol, v, price) =
     alert_text ">="%string high name symbol v price).
Proof.
  intros alert_text low high name symbol v price Hlh Halert.
  unfold alert_line, is_alert in *. simpl in *.
  destruct (Qle_bool v low) eqn:Hlow.
  - left. split; [apply Qle_bool_iff; exact Hlow | reflexivity].
  - right. cbn [orb] in Halert. apply Qle_bool_iff in Halert.
    assert (Hnl : ~ (v <= low)%Q)
      by (intros Hc; apply Qle_bool_iff in Hc; congruence).
    repeat split; [lra | exact Halert].
Qed.

Lemma alert_line_names_crossed_threshold_witness :
  ((90 <= 25)%Q /\
   alert_line plain_text 25%Q 75%Q (JStr "Pepe", "PEPE"%string, 90%Q, JNum 1%Q) =
   plain_text "<="%string 25%Q (JStr "Pepe") "PEPE"%string 90%Q (JNum 1%Q)) \/
  ((25 < 90)%Q /\ (75 <= 90)%Q /\
   alert_line plain_text 25%Q 75%Q (JStr "Pepe", "PEPE"%string, 90%Q, JNum 1%Q) =
   plain_text ">="%string 75%Q (JStr "Pepe") "PEPE"%string 90%Q (JNum 1%Q)).
Proof.
  apply alert_line_names_crossed_threshold; reflexivity.
Defined.

(** X22. The alert panel accounts for every alert: it writes the first
    twenty, in order, and the number it announces as hidden is the
    number of the others. *)
Theorem alerts_panel_accounts_for_all :
  forall (F : Type) (alerts : list (alert F)),
    panel_alerts (alerts_panel alerts) = firstn 20 alerts /\
    Z.of_nat (length (panel_alerts (alerts_panel alerts)))
    + panel_hidden (alerts_panel alerts) = Z.of_nat (length alerts).
Proof.
  intros F alerts.
  assert (Hshown : forall l : list (alert F),
             panel_alerts (map PanelAlert l) = l).
  { unfold panel_alerts. induction l as [|a l IH]; [reflexivity|].
    cbn [map flat_map app]. now rewrite IH. }
  assert (Hnone : forall l : list (alert F),
             panel_hidden (map PanelAlert l) = 0).
  { unfold panel_hidden. induction l as [|a l IH]; [reflexivity|].
    cbn [map fold_right]. exact IH. }
  assert (Happ : forall l1 l2 : list (panel_item F),
             panel_hidden (l1 ++ l2) = panel_hidden l1 + panel_hidden l2).
  { unfold panel_hidden. induction l1 as [|it l1 IH]; intros l2; [reflexivity|].
    cbn [app fold_right]. rewrite IH. destruct it; lia. }
  assert (Happ' : forall l1 l2 : list (panel_item F),
             panel_alerts (l1 ++ l2) = panel_alerts l1 ++ panel_alerts l2).
  { intros l1 l2. unfold panel_alerts. apply flat_map_app. }
  destruct alerts as [|a alerts]; [split; reflexivity|].
  set (all := a :: alerts).
  assert (Hpanel : alerts_panel all =
                   [PanelCount (Z.of_nat (length all))]
                   ++ map PanelAlert (firstn 20 all)
                   ++ (if 20 <? Z.of_nat (length all)
                       then [PanelMore (Z.of_nat (length all) - 20)]
                       else [])) by reflexivity.
  rewrite Hpanel, !Happ, !Happ', Hshown, Hnone.
  change (panel_alerts [PanelCount (Z.of_nat (length all))]) with (@nil (alert F)).
  change (panel_hidden [PanelCount (Z.of_nat (length all))]) with 0.
  cbn [app].
  destruct (Z.ltb_spec 20 (Z.of_nat (length all))) as [Hmany|Hfew].
  - change (panel_alerts [PanelMore (Z.of_nat (length all) - 20)])
      with (@nil (alert F)).
    change (panel_hidden [PanelMore (Z.of_nat (length all) - 20)])
      with (Z.of_nat (length all) - 20 + 0).
    rewrite app_nil_r. split; [reflexivity|]. rewrite length_firstn. lia.
  - change (panel_alerts (@nil (panel_item F))) with (@nil (alert F)).
    change (panel_hidden (@nil (panel_item F))) with 0.
    rewrite app_nil_r. split; [reflexivity|]. rewrite length_firstn. lia.
Qed.

(** *** A close that is not a number, end to end *)


